(** * Conversational chatbot: client state, manual memory editing and the
      memory subsystem

    The React front end (ChatContext, UserContext, UserProfile,
    MessageMetadata) is embedded function by function.  JavaScript strings
    are sequences of UTF-16 code units; reducers are pure functions on
    records; the async handlers are scripts whose effects (dispatches,
    backend calls, toasts) are explicit, so that the order of effects and
    the behaviour under a failing backend call can be stated. *)

From Stdlib Require Import List ZArith QArith NArith String Ascii Bool Lia.
From Stdlib Require Import Permutation Sorted.
Import ListNotations.

Set Implicit Arguments.

(** ** JavaScript strings *)

Module JS.

Definition code_unit := N.
Definition jsstring := list code_unit.

(** A string literal of the source, as code units. *)
Definition lit (s : string) : jsstring :=
  map N_of_ascii (list_ascii_of_string s).

Definition eqb (a b : jsstring) : bool :=
  if list_eq_dec N.eq_dec a b then true else false.

(** ECMAScript WhiteSpace and LineTerminator code points, the characters
    removed by [String.prototype.trim] and skipped by [parseInt]. *)
Definition is_whitespace (c : code_unit) : bool :=
  (N.eqb c 9 || N.eqb c 10 || N.eqb c 11 || N.eqb c 12 || N.eqb c 13
   || N.eqb c 32 || N.eqb c 160 || N.eqb c 5760
   || (N.leb 8192 c && N.leb c 8202)
   || N.eqb c 8232 || N.eqb c 8233 || N.eqb c 8239 || N.eqb c 8287
   || N.eqb c 12288 || N.eqb c 65279)%bool.
Arguments is_whitespace : simpl never.

Fixpoint trimStart (s : jsstring) : jsstring :=
  match s with
  | [] => []
  | c :: r => if is_whitespace c then trimStart r else s
  end.

Definition trimEnd (s : jsstring) : jsstring :=
  rev (trimStart (rev s)).

Definition trim (s : jsstring) : jsstring := trimEnd (trimStart s).

(** Truthiness of a string: the empty string is the only falsy one. *)
Definition truthy (s : jsstring) : bool :=
  match s with [] => false | _ :: _ => true end.

(** [Array.prototype.join]. *)
Fixpoint join (sep : jsstring) (l : list jsstring) : jsstring :=
  match l with
  | [] => []
  | [x] => x
  | x :: r => x ++ sep ++ join sep r
  end.

(** [Array.prototype.slice(-n)]: the last [n] elements. *)
Definition slice_last {A} (n : nat) (l : list A) : list A :=
  skipn (List.length l - n) l.

(** Numbers produced by [parseInt]: an integer or NaN. *)
Inductive number := NaN | Num (z : Z).

End JS.

Import JS.

(** ** ChatContext: state and reducer *)

Definition Emotions := list (jsstring * Q).

Record BotFields := {
  tone_used : option jsstring;
  emotion_detected : option Emotions;
  memory_recalled : list jsstring;
  tokens_used : Z;
  response_time : Q
}.

Record Message := {
  id : jsstring;
  message : jsstring;
  response : option jsstring;
  timestamp : jsstring;
  isUser : bool;
  bot : option BotFields
}.

Record Session := {
  session_id : jsstring;
  session_title : jsstring
}.

Record Analytics := {
  total_messages : Z;
  average_tokens_per_response : Q
}.

Record ChatState := {
  messages : list Message;
  sessions : list Session;
  currentSessionId : option jsstring;
  isLoading : bool;
  isTyping : bool;
  error : option jsstring;
  analytics : option Analytics
}.

Definition initialState : ChatState := {|
  messages := [];
  sessions := [];
  currentSessionId := None;
  isLoading := false;
  isTyping := false;
  error := None;
  analytics := None
|}.

Inductive ChatAction :=
| SET_LOADING (payload : bool)
| SET_TYPING (payload : bool)
| SET_ERROR (payload : option jsstring)
| ADD_MESSAGE (payload : Message)
| SET_MESSAGES (payload : list Message)
| SET_SESSIONS (payload : list Session)
| SET_CURRENT_SESSION (payload : option jsstring)
| ADD_SESSION (payload : Session)
| DELETE_SESSION (payload : jsstring)
| SET_ANALYTICS (payload : option Analytics)
| CLEAR_MESSAGES
| OTHER_ACTION (type : jsstring).

(** [state.currentSessionId === action.payload] for a string payload. *)
Definition is_current (cur : option jsstring) (payload : jsstring) : bool :=
  match cur with
  | Some c => JS.eqb c payload
  | None => false
  end.

Definition chatReducer (state : ChatState) (action : ChatAction) : ChatState :=
  match action with
  | SET_LOADING p =>
      {| messages := messages state; sessions := sessions state;
         currentSessionId := currentSessionId state; isLoading := p;
         isTyping := isTyping state; error := error state;
         analytics := analytics state |}
  | SET_TYPING p =>
      {| messages := messages state; sessions := sessions state;
         currentSessionId := currentSessionId state;
         isLoading := isLoading state; isTyping := p;
         error := error state; analytics := analytics state |}
  | SET_ERROR p =>
      {| messages := messages state; sessions := sessions state;
         currentSessionId := currentSessionId state;
         isLoading := isLoading state; isTyping := isTyping state;
         error := p; analytics := analytics state |}
  | ADD_MESSAGE p =>
      {| messages := messages state ++ [p]; sessions := sessions state;
         currentSessionId := currentSessionId state;
         isLoading := isLoading state; isTyping := isTyping state;
         error := error state; analytics := analytics state |}
  | SET_MESSAGES p =>
      {| messages := p; sessions := sessions state;
         currentSessionId := currentSessionId state;
         isLoading := isLoading state; isTyping := isTyping state;
         error := error state; analytics := analytics state |}
  | SET_SESSIONS p =>
      {| messages := messages state; sessions := p;
         currentSessionId := currentSessionId state;
         isLoading := isLoading state; isTyping := isTyping state;
         error := error state; analytics := analytics state |}
  | SET_CURRENT_SESSION p =>
      {| messages := messages state; sessions := sessions state;
         currentSessionId := p;
         isLoading := isLoading state; isTyping := isTyping state;
         error := error state; analytics := analytics state |}
  | ADD_SESSION p =>
      {| messages := messages state; sessions := p :: sessions state;
         currentSessionId := currentSessionId state;
         isLoading := isLoading state; isTyping := isTyping state;
         error := error state; analytics := analytics state |}
  | DELETE_SESSION p =>
      {| messages :=
           if is_current (currentSessionId state) p then []
           else messages state;
         sessions :=
           filter (fun s => negb (JS.eqb (session_id s) p)) (sessions state);
         currentSessionId :=
           if is_current (currentSessionId state) p then None
           else currentSessionId state;
         isLoading := isLoading state; isTyping := isTyping state;
         error := error state; analytics := analytics state |}
  | SET_ANALYTICS p =>
      {| messages := messages state; sessions := sessions state;
         currentSessionId := currentSessionId state;
         isLoading := isLoading state; isTyping := isTyping state;
         error := error state; analytics := p |}
  | CLEAR_MESSAGES =>
      {| messages := []; sessions := sessions state;
         currentSessionId := currentSessionId state;
         isLoading := isLoading state; isTyping := isTyping state;
         error := error state; analytics := analytics state |}
  | OTHER_ACTION _ => state
  end.

(** ** UserContext: state and reducer *)

(** The object built by the manual-add form and posted to the backend. *)
Record NewMemory := {
  content : jsstring;
  memory_type : jsstring;
  importance_score : JS.number
}.

Record Metadata := {
  meta_memory_type : option jsstring;
  meta_importance_score : option Z
}.

(** An element of [state.memories]: a memory as listed by the backend
    ([id], [content], [metadata]), or the form object that [ADD_MEMORY]
    appends as it is (it has no [id]). *)
Inductive MemoryItem :=
| Listed (mid : jsstring) (text : jsstring) (metadata : option Metadata)
| Added (data : NewMemory).

Module UserContext.

Record User := {
  name : option jsstring;
  email : option jsstring;
  preferences : list (jsstring * jsstring)
}.

Record Profile := {
  communication_style : option jsstring;
  total_memories : Z
}.

Record State := {
  user : option User;
  userId : option jsstring;
  profile : option Profile;
  memories : list MemoryItem;
  isLoading : bool;
  error : option jsstring
}.

Definition initialState : State := {|
  user := None;
  userId := None;
  profile := None;
  memories := [];
  isLoading := false;
  error := None
|}.

Inductive Action :=
| SET_LOADING (payload : bool)
| SET_ERROR (payload : option jsstring)
| SET_USER (payload : option User)
| SET_USER_ID (payload : option jsstring)
| SET_PROFILE (payload : option Profile)
| SET_MEMORIES (payload : list MemoryItem)
| ADD_MEMORY (payload : NewMemory)
| DELETE_MEMORY (payload : jsstring)
| OTHER_ACTION (type : jsstring).

(** [m.id !== action.payload]; an item without [id] is never equal. *)
Definition memory_id_differs (payload : jsstring) (m : MemoryItem) : bool :=
  match m with
  | Listed mid _ _ => negb (JS.eqb mid payload)
  | Added _ => true
  end.

Definition userReducer (state : State) (action : Action) : State :=
  match action with
  | SET_LOADING p =>
      {| user := user state; userId := userId state;
         profile := profile state; memories := memories state;
         isLoading := p; error := error state |}
  | SET_ERROR p =>
      {| user := user state; userId := userId state;
         profile := profile state; memories := memories state;
         isLoading := isLoading state; error := p |}
  | SET_USER p =>
      {| user := p; userId := userId state;
         profile := profile state; memories := memories state;
         isLoading := isLoading state; error := error state |}
  | SET_USER_ID p =>
      {| user := user state; userId := p;
         profile := profile state; memories := memories state;
         isLoading := isLoading state; error := error state |}
  | SET_PROFILE p =>
      {| user := user state; userId := userId state;
         profile := p; memories := memories state;
         isLoading := isLoading state; error := error state |}
  | SET_MEMORIES p =>
      {| user := user state; userId := userId state;
         profile := profile state; memories := p;
         isLoading := isLoading state; error := error state |}
  | ADD_MEMORY p =>
      {| user := user state; userId := userId state;
         profile := profile state; memories := memories state ++ [Added p];
         isLoading := isLoading state; error := error state |}
  | DELETE_MEMORY p =>
      {| user := user state; userId := userId state;
         profile := profile state;
         memories := filter (memory_id_differs p) (memories state);
         isLoading := isLoading state; error := error state |}
  | OTHER_ACTION _ => state
  end.

End UserContext.

(** ** UserProfile: local state of the manual-add form *)

Record FormState := {
  newMemory : NewMemory;
  showAddMemory : bool
}.

Definition defaultNewMemory : NewMemory := {|
  content := [];
  memory_type := lit "preference";
  importance_score := Num 5
|}.

Definition initialForm : FormState := {|
  newMemory := defaultNewMemory;
  showAddMemory := false
|}.

(** ** The application state and its updates *)

Record AppState := {
  chat : ChatState;
  usr : UserContext.State;
  form : FormState
}.

Inductive Update :=
| ChatDispatch (a : ChatAction)
| UserDispatch (a : UserContext.Action)
| SetNewMemory (nm : NewMemory)
| SetShowAddMemory (b : bool).

Definition apply_update (u : Update) (s : AppState) : AppState :=
  match u with
  | ChatDispatch a =>
      {| chat := chatReducer (chat s) a; usr := usr s; form := form s |}
  | UserDispatch a =>
      {| chat := chat s; usr := UserContext.userReducer (usr s) a; form := form s |}
  | SetNewMemory nm =>
      {| chat := chat s; usr := usr s;
         form := {| newMemory := nm;
                    showAddMemory := showAddMemory (form s) |} |}
  | SetShowAddMemory b =>
      {| chat := chat s; usr := usr s;
         form := {| newMemory := newMemory (form s);
                    showAddMemory := b |} |}
  end.

(** ** Effects of the async handlers *)

(** The error object of a rejected axios call: [error.response?.status]
    and [error.message]. *)
Record ApiError := {
  status : option Z;
  err_message : jsstring
}.

Inductive api_result (A : Type) :=
| Resolved (a : A)
| Rejected (e : ApiError).
Arguments Resolved {A} a.
Arguments Rejected {A} e.

Record ChatRequest := {
  req_user_id : jsstring;
  req_message : jsstring;
  req_session_id : option jsstring;
  req_recent_context : jsstring
}.

Record ChatResponse := {
  resp_response : jsstring;
  resp_session_id : jsstring;
  resp_bot : BotFields
}.

(** What a handler asks of its environment: fresh ids, the clock and the
    backend endpoints of [utils/api]. *)
Inductive Op : Type -> Type :=
| Uuidv4 : Op jsstring
| NowISOString : Op jsstring
| SendMessageApi (data : ChatRequest) : Op (api_result ChatResponse)
| GetSessionsApi (uid : jsstring) : Op (api_result (list Session))
| DeleteSessionApi (sessionId : jsstring) : Op (api_result unit)
| GetUserMemoriesApi (uid : jsstring) (memoryType : option jsstring)
    : Op (api_result (list MemoryItem))
| AddUserMemoryApi (uid : jsstring) (data : NewMemory) : Op (api_result unit)
| DeleteUserMemoryApi (uid : jsstring) (memoryId : jsstring)
    : Op (api_result unit).

Inductive UiEffect :=
| PreventDefault
| ConsoleError (label : jsstring) (e : ApiError)
| ToastError (text : jsstring)
| ToastSuccess (text : jsstring).

(** How the promise of an async function settles for its caller. *)
Inductive Settled :=
| Fulfilled
| RejectedWith (e : ApiError).

(** A handler as a script: state updates, UI effects, awaited calls and
    calls started without [await]. *)
Inductive Proc (R : Type) : Type :=
| Ret (r : R)
| Do (u : Update) (k : Proc R)
| Ui (e : UiEffect) (k : Proc R)
| Call (A : Type) (op : Op A) (k : A -> Proc R)
| Spawn (q : Proc Settled) (k : Proc R).
Arguments Ret {R} _.
Arguments Do {R} _ _.
Arguments Ui {R} _ _.
Arguments Call {R A} _ _.
Arguments Spawn {R} _ _.

Fixpoint bind {R S} (p : Proc R) (f : R -> Proc S) : Proc S :=
  match p with
  | Ret r => f r
  | Do u k => Do u (bind k f)
  | Ui e k => Ui e (bind k f)
  | Call op k => Call op (fun a => bind (k a) f)
  | Spawn q k => Spawn q (bind k f)
  end.

Notation "x <- c ;; k" := (bind c (fun x => k))
  (at level 61, c at next level, right associativity).
Notation "c ;;; k" := (bind c (fun _ => k))
  (at level 61, right associativity).

Definition dispatch (a : ChatAction) : Proc unit := Do (ChatDispatch a) (Ret tt).
Definition dispatchUser (a : UserContext.Action) : Proc unit :=
  Do (UserDispatch a) (Ret tt).
Definition ui (e : UiEffect) : Proc unit := Ui e (Ret tt).
Definition call {A} (op : Op A) : Proc A := Call op (fun a => Ret a).

(** [await p; k]: a rejection of [p] outside any [try] rejects the caller. *)
Definition await (p : Proc Settled) (k : Proc Settled) : Proc Settled :=
  r <- p ;;
  match r with
  | Fulfilled => k
  | RejectedWith e => Ret (RejectedWith e)
  end.

(** *** Running a script against an environment *)

Inductive Event :=
| EvUpdate (u : Update)
| EvUi (e : UiEffect)
| EvCall (A : Type) (op : Op A).
Arguments EvCall {A} op.

(** The environment answers every request and may change its own state. *)
Definition Handler (W : Type) := forall A, Op A -> W -> A * W.

Record Outcome (W R : Type) := {
  result : R;
  world : W;
  app : AppState;
  trace : list Event
}.

Definition emit {W R} (e : Event) (o : Outcome W R) : Outcome W R :=
  {| result := result o; world := world o; app := app o;
     trace := e :: trace o |}.

(** A call started without [await] completes after the script that
    started it. *)
Fixpoint run {W R} (h : Handler W) (p : Proc R) (w : W) (s : AppState)
  : Outcome W R :=
  match p with
  | Ret r => {| result := r; world := w; app := s; trace := [] |}
  | Do u k => emit (EvUpdate u) (run h k w (apply_update u s))
  | Ui e k => emit (EvUi e) (run h k w s)
  | Call op k =>
      let (a, w') := h _ op w in
      emit (EvCall op) (run h (k a) w' s)
  | Spawn q k =>
      let o1 := run h k w s in
      let o2 := run h q (world o1) (app o1) in
      {| result := result o1; world := world o2; app := app o2;
         trace := trace o1 ++ trace o2 |}
  end.

(** ** ChatContext: handlers *)

Definition loadSessions (uid : jsstring) : Proc Settled :=
  r <- call (GetSessionsApi uid) ;;
  match r with
  | Resolved sessions => dispatch (SET_SESSIONS sessions)
  | Rejected e =>
      ui (ConsoleError (lit "Error loading sessions:") e) ;;;
      ui (ToastError (lit "Failed to load chat sessions"))
  end ;;;
  Ret Fulfilled.

(** [state.messages.slice(-3).map(m => m.message).join(' ')] *)
Definition recent_context (state : ChatState) : jsstring :=
  join (lit " ") (map message (slice_last 3 (messages state))).

(** [state] is the state captured by the closure when the handler was
    created; the dispatches act on the live state. *)
Definition sendMessage (state : ChatState) (msg : jsstring) (uid : jsstring)
  : Proc Settled :=
  if negb (truthy (trim msg)) then Ret Fulfilled
  else
    mid <- call Uuidv4 ;;
    ts <- call NowISOString ;;
    let userMessage :=
      {| id := mid; message := msg; response := None; timestamp := ts;
         isUser := true; bot := None |} in
    dispatch (ADD_MESSAGE userMessage) ;;;
    dispatch (SET_TYPING true) ;;;
    thrown <-
      (r <- call (SendMessageApi
                    {| req_user_id := uid; req_message := msg;
                       req_session_id := currentSessionId state;
                       req_recent_context := recent_context state |}) ;;
       match r with
       | Rejected e => Ret (Some e)
       | Resolved response =>
           bid <- call Uuidv4 ;;
           bts <- call NowISOString ;;
           let botMessage :=
             {| id := bid; message := msg;
                response := Some (resp_response response);
                timestamp := bts; isUser := false;
                bot := Some (resp_bot response) |} in
           dispatch (ADD_MESSAGE botMessage) ;;;
           if is_current (currentSessionId state) (resp_session_id response)
           then Ret None
           else
             dispatch (SET_CURRENT_SESSION (Some (resp_session_id response))) ;;;
             l <- loadSessions uid ;;
             match l with
             | Fulfilled => Ret None
             | RejectedWith e => Ret (Some e)
             end
       end) ;;
    match thrown with
    | Some e =>
        ui (ConsoleError (lit "Error sending message:") e) ;;;
        ui (ToastError (lit "Failed to send message. Please try again.")) ;;;
        dispatch (SET_ERROR (Some (err_message e)))
    | None => Ret tt
    end ;;;
    dispatch (SET_TYPING false) ;;;
    Ret Fulfilled.

Definition createNewSession : Proc unit :=
  dispatch CLEAR_MESSAGES ;;;
  dispatch (SET_CURRENT_SESSION None).

Definition deleteSession (sessionId : jsstring) : Proc Settled :=
  r <- call (DeleteSessionApi sessionId) ;;
  match r with
  | Resolved _ =>
      dispatch (DELETE_SESSION sessionId) ;;;
      ui (ToastSuccess (lit "Session deleted successfully"))
  | Rejected e =>
      ui (ConsoleError (lit "Error deleting session:") e) ;;;
      ui (ToastError (lit "Failed to delete session"))
  end ;;;
  Ret Fulfilled.

(** ** UserContext: handlers *)

(** [state.userId] when it is truthy. *)
Definition truthy_userId (state : UserContext.State) : option jsstring :=
  match UserContext.userId state with
  | Some u => if truthy u then Some u else None
  | None => None
  end.

Definition loadMemories (state : UserContext.State) (memoryType : option jsstring)
  : Proc Settled :=
  match truthy_userId state with
  | None => Ret Fulfilled
  | Some uid =>
      r <- call (GetUserMemoriesApi uid memoryType) ;;
      match r with
      | Resolved listed => dispatchUser (UserContext.SET_MEMORIES listed)
      | Rejected e => ui (ConsoleError (lit "Error loading memories:") e)
      end ;;;
      Ret Fulfilled
  end.

Definition addMemory (state : UserContext.State) (memoryData : NewMemory)
  : Proc Settled :=
  match truthy_userId state with
  | None => Ret Fulfilled
  | Some uid =>
      r <- call (AddUserMemoryApi uid memoryData) ;;
      match r with
      | Resolved _ =>
          dispatchUser (UserContext.ADD_MEMORY memoryData) ;;;
          ui (ToastSuccess (lit "Memory added successfully")) ;;;
          Spawn (loadMemories state None) (Ret tt)
      | Rejected e =>
          ui (ConsoleError (lit "Error adding memory:") e) ;;;
          ui (ToastError (lit "Failed to add memory"))
      end ;;;
      Ret Fulfilled
  end.

Definition deleteMemory (state : UserContext.State) (memoryId : jsstring)
  : Proc Settled :=
  match truthy_userId state with
  | None => Ret Fulfilled
  | Some uid =>
      r <- call (DeleteUserMemoryApi uid memoryId) ;;
      match r with
      | Resolved _ =>
          dispatchUser (UserContext.DELETE_MEMORY memoryId) ;;;
          ui (ToastSuccess (lit "Memory deleted successfully"))
      | Rejected e =>
          ui (ConsoleError (lit "Error deleting memory:") e) ;;;
          ui (ToastError (lit "Failed to delete memory"))
      end ;;;
      Ret Fulfilled
  end.

(** ** UserProfile: the manual-add form *)

Definition handleAddMemory (s : AppState) : Proc Settled :=
  Ui PreventDefault
    (if negb (truthy (trim (content (newMemory (form s))))) then Ret Fulfilled
     else
       await (addMemory (usr s) (newMemory (form s)))
             (Do (SetNewMemory defaultNewMemory)
                (Do (SetShowAddMemory false) (Ret Fulfilled)))).

(** The table of [getMemoryTypeColor], in source order. *)
Definition colors : list (jsstring * jsstring) :=
  [ (lit "preference", lit "bg-blue-100 text-blue-800");
    (lit "fact", lit "bg-green-100 text-green-800");
    (lit "emotion", lit "bg-pink-100 text-pink-800");
    (lit "context", lit "bg-gray-100 text-gray-800");
    (lit "goal", lit "bg-purple-100 text-purple-800");
    (lit "interest", lit "bg-yellow-100 text-yellow-800") ].

(** Property access [o[k]] on an object given by its entries. *)
Fixpoint get {V} (o : list (jsstring * V)) (k : jsstring) : option V :=
  match o with
  | [] => None
  | (k', v) :: r => if JS.eqb k' k then Some v else get r k
  end.

(** [colors[type] || colors.fact], for keys that are own properties of
    the table or absent from it; the names that every object inherits
    ([constructor], [toString], ...) are outside this model. *)
Definition getMemoryTypeColor (type : jsstring) : option jsstring :=
  match get colors type with
  | Some c => if truthy c then Some c else get colors (lit "fact")
  | None => get colors (lit "fact")
  end.

(** The [<option>] elements of the memory-type [<select>]. *)
Inductive MemoryTypeOption :=
| OptPreference | OptFact | OptEmotion | OptGoal | OptInterest.

Definition option_value (o : MemoryTypeOption) : jsstring :=
  match o with
  | OptPreference => lit "preference"
  | OptFact => lit "fact"
  | OptEmotion => lit "emotion"
  | OptGoal => lit "goal"
  | OptInterest => lit "interest"
  end.

(** [parseInt(string)] without a radix argument. *)
Definition digit_value (c : code_unit) : option Z :=
  if (N.leb 48 c && N.leb c 57)%bool then Some (Z.of_N c - 48)%Z
  else if (N.leb 97 c && N.leb c 122)%bool then Some (Z.of_N c - 87)%Z
  else if (N.leb 65 c && N.leb c 90)%bool then Some (Z.of_N c - 55)%Z
  else None.

Fixpoint parse_digits (radix : Z) (acc : option Z) (s : jsstring) : option Z :=
  match s with
  | [] => acc
  | c :: r =>
      match digit_value c with
      | Some d =>
          if (d <? radix)%Z
          then parse_digits radix
                 (Some (radix * match acc with Some a => a | None => 0 end + d)%Z)
                 r
          else acc
      | None => acc
      end
  end.

Definition parseInt (s : jsstring) : JS.number :=
  let s1 := trimStart s in
  let '(sign, s2) :=
    match s1 with
    | 45%N :: r => ((-1)%Z, r)
    | 43%N :: r => (1%Z, r)
    | _ => (1%Z, s1)
    end in
  let '(radix, s3) :=
    match s2 with
    | 48%N :: 120%N :: r => (16%Z, r)
    | 48%N :: 88%N :: r => (16%Z, r)
    | _ => (10%Z, s2)
    end in
  match parse_digits radix None s3 with
  | None => NaN
  | Some n => Num (sign * n)
  end.

(** The three [onChange] handlers of the form fields. *)
Definition onContentChange (nm : NewMemory) (v : jsstring) : NewMemory :=
  {| content := v; memory_type := memory_type nm;
     importance_score := importance_score nm |}.

Definition onMemoryTypeChange (nm : NewMemory) (v : jsstring) : NewMemory :=
  {| content := content nm; memory_type := v;
     importance_score := importance_score nm |}.

Definition onImportanceChange (nm : NewMemory) (v : jsstring) : NewMemory :=
  {| content := content nm; memory_type := memory_type nm;
     importance_score := parseInt v |}.

(** Constraint validation of the form controls before [onSubmit] fires:
    the textarea is [required]; the number input has [min="1"] and
    [max="10"] and no [required], so an empty field is valid.  The field
    displays the controlled value, which is empty when that value is NaN. *)
Definition content_valid (nm : NewMemory) : bool := truthy (content nm).

Definition importance_valid (nm : NewMemory) : bool :=
  match importance_score nm with
  | NaN => true
  | Num z => ((1 <=? z) && (z <=? 10))%Z
  end.

Definition form_valid (nm : NewMemory) : bool :=
  content_valid nm && importance_valid nm.

(** What the user can do on the Personal Memories card. *)
Inductive UiEvent :=
| ClickAddMemory
| TypeContent (v : jsstring)
| ChooseMemoryType (o : MemoryTypeOption)
| TypeImportance (v : jsstring)
| ClickSubmit
| ClickCancel.

(** The form exists only while [showAddMemory] holds. *)
Definition on_event (s : AppState) (ev : UiEvent) : Proc Settled :=
  match ev with
  | ClickAddMemory => Do (SetShowAddMemory true) (Ret Fulfilled)
  | _ =>
      if showAddMemory (form s) then
        match ev with
        | ClickAddMemory => Ret Fulfilled
        | TypeContent v =>
            Do (SetNewMemory (onContentChange (newMemory (form s)) v))
               (Ret Fulfilled)
        | ChooseMemoryType o =>
            Do (SetNewMemory
                  (onMemoryTypeChange (newMemory (form s)) (option_value o)))
               (Ret Fulfilled)
        | TypeImportance v =>
            Do (SetNewMemory (onImportanceChange (newMemory (form s)) v))
               (Ret Fulfilled)
        | ClickSubmit =>
            if form_valid (newMemory (form s)) then handleAddMemory s
            else Ret Fulfilled
        | ClickCancel => Do (SetShowAddMemory false) (Ret Fulfilled)
        end
      else Ret Fulfilled
  end.

(** A session of user events; every handler sees the state left by the
    previous one. *)
Fixpoint drive {W} (h : Handler W) (evs : list UiEvent) (w : W) (s : AppState)
  : W * AppState * list Event :=
  match evs with
  | [] => (w, s, [])
  | ev :: rest =>
      let o := run h (on_event s ev) w s in
      let '(w', s', t) := drive h rest (world o) (app o) in
      (w', s', trace o ++ t)
  end.

(** ** MessageMetadata *)

Inductive EmotionsArg :=
| EmNull
| EmUndefined
| EmObject (entries : Emotions).

(** [x > y] on property reads; a missing property compares false. *)
Definition js_gt (a b : option Q) : bool :=
  match a, b with
  | Some x, Some y => negb (Qle_bool x y)
  | _, _ => false
  end.

(** [Array.prototype.reduce] without an initial value. *)
Definition reduce {A} (f : A -> A -> A) (l : list A) : option A :=
  match l with
  | [] => None
  | x :: r => Some (fold_left f r x)
  end.

Definition getDominantEmotion (emotions : EmotionsArg)
  : option (jsstring * Q) :=
  match emotions with
  | EmNull => None
  | EmUndefined => None
  | EmObject o =>
      if Nat.eqb (List.length (map fst o)) 0 then None
      else
        reduce (fun a b => if js_gt (get o (fst a)) (get o (fst b))
                           then a else b) o
  end.

(** The pieces of one [sendMessage] run that its properties mention: the
    user message built from the environment's id and clock, the request
    sent to the backend, and the backend's answer to that request. *)
Definition sent_user_message {W} (h : Handler W) (w : W) (msg : jsstring)
  : Message :=
  let (mid, w1) := h _ Uuidv4 w in
  let (ts, _) := h _ NowISOString w1 in
  {| id := mid; message := msg; response := None; timestamp := ts;
     isUser := true; bot := None |}.

Definition sent_request (state : ChatState) (msg uid : jsstring)
  : ChatRequest :=
  {| req_user_id := uid; req_message := msg;
     req_session_id := currentSessionId state;
     req_recent_context := recent_context state |}.

Definition backend_answer {W} (h : Handler W) (w : W) (state : ChatState)
  (msg uid : jsstring) : api_result ChatResponse :=
  let (_, w1) := h _ Uuidv4 w in
  let (_, w2) := h _ NowISOString w1 in
  fst (h _ (SendMessageApi (sent_request state msg uid)) w2).

(** The memories handed to the backend by the manual-add interface
    during a run, in order. *)
Definition submission (e : Event) : option (jsstring * NewMemory) :=
  match e with
  | EvCall op =>
      match op with
      | AddUserMemoryApi uid data => Some (uid, data)
      | _ => None
      end
  | _ => None
  end.

Fixpoint submissions (t : list Event) : list (jsstring * NewMemory) :=
  match t with
  | [] => []
  | e :: r =>
      match submission e with
      | Some d => d :: submissions r
      | None => submissions r
      end
  end.

(** A failure reaches the caller of an async function when the promise it
    returned is rejected. *)
Definition signalled_to_caller (r : Settled) : Prop :=
  exists e, r = RejectedWith e.

(** ** The backend's delete endpoints *)

(** Modelled from the spec: the backend is not part of the front-end
    sources.  Section 4.4 gives the Structured Store's [delete(id)]: on an
    id that is not stored it signals NotFound and changes nothing; the
    HTTP layer turns that into a rejected request (status 404). *)
Record Store := {
  stored_sessions : list jsstring;
  stored_memories : list (jsstring * jsstring)
}.

Definition not_found : ApiError :=
  {| status := Some 404%Z;
     err_message := lit "Request failed with status code 404" |}.

Definition pair_eqb (a b : jsstring * jsstring) : bool :=
  JS.eqb (fst a) (fst b) && JS.eqb (snd a) (snd b).

Definition store_delete_session (sid : jsstring) (st : Store)
  : api_result unit * Store :=
  if existsb (JS.eqb sid) (stored_sessions st)
  then (Resolved tt,
        {| stored_sessions :=
             filter (fun x => negb (JS.eqb sid x)) (stored_sessions st);
           stored_memories := stored_memories st |})
  else (Rejected not_found, st).

Definition store_delete_memory (uid mid : jsstring) (st : Store)
  : api_result unit * Store :=
  if existsb (pair_eqb (uid, mid)) (stored_memories st)
  then (Resolved tt,
        {| stored_sessions := stored_sessions st;
           stored_memories :=
             filter (fun x => negb (pair_eqb (uid, mid) x))
                    (stored_memories st) |})
  else (Rejected not_found, st).

(** An environment whose delete endpoints are served by the store and
    whose other requests go to [base]. *)
Definition store_backend {W} (base : Handler W) : Handler (Store * W) :=
  fun A (op : Op A) (sw : Store * W) =>
    match op in Op T return T * W -> T * (Store * W) with
    | DeleteSessionApi sid => fun _ =>
        let (r, st') := store_delete_session sid (fst sw) in (r, (st', snd sw))
    | DeleteUserMemoryApi uid mid => fun _ =>
        let (r, st') := store_delete_memory uid mid (fst sw) in
        (r, (st', snd sw))
    | _ => fun r => (fst r, (fst sw, snd r))
    end (base A op (snd sw)).

(** Two closed environments used to run the handlers on examples: one
    whose backend rejects every request, one that accepts every request.
    Ids and timestamps are fixed strings. *)
Definition network_error : ApiError :=
  {| status := None; err_message := lit "Network Error" |}.

Definition offline : Handler unit :=
  fun A (op : Op A) (w : unit) =>
    match op in Op T return T * unit with
    | Uuidv4 => (lit "uuid", w)
    | NowISOString => (lit "2024-01-01T00:00:00.000Z", w)
    | SendMessageApi _ => (Rejected network_error, w)
    | GetSessionsApi _ => (Rejected network_error, w)
    | DeleteSessionApi _ => (Rejected network_error, w)
    | GetUserMemoriesApi _ _ => (Rejected network_error, w)
    | AddUserMemoryApi _ _ => (Rejected network_error, w)
    | DeleteUserMemoryApi _ _ => (Rejected network_error, w)
    end.

Definition online : Handler unit :=
  fun A (op : Op A) (w : unit) =>
    match op in Op T return T * unit with
    | Uuidv4 => (lit "uuid", w)
    | NowISOString => (lit "2024-01-01T00:00:00.000Z", w)
    | SendMessageApi d =>
        (Resolved {| resp_response := lit "Hello!";
                     resp_session_id := lit "s1";
                     resp_bot := {| tone_used := None;
                                    emotion_detected := None;
                                    memory_recalled := [];
                                    tokens_used := 0;
                                    response_time := 0 |} |}, w)
    | GetSessionsApi _ => (Resolved [], w)
    | DeleteSessionApi _ => (Resolved tt, w)
    | GetUserMemoriesApi _ _ => (Resolved [], w)
    | AddUserMemoryApi _ _ => (Resolved tt, w)
    | DeleteUserMemoryApi _ _ => (Resolved tt, w)
    end.

Definition initialApp : AppState :=
  {| chat := initialState; usr := UserContext.initialState; form := initialForm |}.

(** The application once [UserContext.SET_USER_ID] has stored the id [u1]. *)
Definition signedIn : AppState :=
  apply_update (UserDispatch (UserContext.SET_USER_ID (Some (lit "u1")))) initialApp.

(** The store holds session [s1] and memory [m1] of user [u1]; the ids
    [s9] and [m9] are unknown to it. *)
Definition sampleStore : Store :=
  {| stored_sessions := [lit "s1"];
     stored_memories := [(lit "u1", lit "m1")] |}.

(** The values offered by the memory-type [<select>]. *)
Definition is_option_value (v : jsstring) : Prop :=
  exists o, v = option_value o.

(** The six keys of the colour table. *)
Definition known_memory_types : list jsstring :=
  [ lit "preference"; lit "fact"; lit "emotion"; lit "context";
    lit "goal"; lit "interest" ].

(** The events that fill in the form with a content and a type and submit
    it. *)
Definition add_with_type (o : MemoryTypeOption) : list UiEvent :=
  [ ClickAddMemory; TypeContent (lit "likes tea"); ChooseMemoryType o;
    ClickSubmit ].

(** The events of a user who empties the importance field before
    submitting. *)
Definition add_with_cleared_importance : list UiEvent :=
  [ ClickAddMemory; TypeContent (lit "likes tea"); TypeImportance [];
    ClickSubmit ].

(** ** The memory subsystem *)

Module Memory.

(** Modelled from the spec: the Memory Manager, the Memory Scorer and the
    Vector Index belong to the Python backend, which is not among the
    sources.  The definitions below follow sections 3, 4.1, 4.2 and 4.3
    of the specification. *)
Inductive MemoryType :=
| preference | fact | emotion | goal | interest | context.

Definition MemoryType_eqb (a b : MemoryType) : bool :=
  match a, b with
  | preference, preference | fact, fact | emotion, emotion
  | goal, goal | interest, interest | context, context => true
  | _, _ => false
  end.

Record MemoryEntry := {
  entry_id : Z;
  user_id : jsstring;
  content : jsstring;
  memory_type : MemoryType;
  importance : Z;
  embedding : list Q;
  created_at : Z;
  last_accessed_at : Z;
  access_count : Z
}.

Record RetrievalQuery := {
  q_user_id : jsstring;
  query_text : jsstring;
  k : nat;
  type_filter : option MemoryType
}.

Record ScoredMemory := {
  entry : MemoryEntry;
  relevance : Q
}.

(** Modelled from the spec: the tunable parts are configuration.  The
    embedding provider, the index's similarity measure and the recency
    curve [exp(-lambda * dt)] are external and enter as functions; the
    decay step is [decay_points] per [decay_period] of idle time. *)
Record Config := {
  embed : jsstring -> list Q;
  similarity : list Q -> list Q -> Q;
  recency_factor : Z -> Q;
  w1 : Q;
  w2 : Q;
  w3 : Q;
  decay_points : N;
  decay_period : positive;
  protected_threshold : Z
}.

Definition protected_minimum : Z := 1.

(** Insertion sort by a boolean "goes before" test. *)
Fixpoint insert_by {A} (before : A -> A -> bool) (x : A) (l : list A)
  : list A :=
  match l with
  | [] => [x]
  | y :: r => if before x y then x :: l else y :: insert_by before x r
  end.

Fixpoint sort_by {A} (before : A -> A -> bool) (l : list A) : list A :=
  match l with
  | [] => []
  | x :: r => insert_by before x (sort_by before r)
  end.

Definition Qltb (a b : Q) : bool := negb (Qle_bool b a).

(** Modelled from the spec (4.3): [query] restricts to the user and the
    optional type, orders by descending raw similarity and keeps [n]. *)
Definition in_scope (uid : jsstring) (tf : option MemoryType)
  (e : MemoryEntry) : bool :=
  JS.eqb (user_id e) uid &&
  match tf with
  | None => true
  | Some t => MemoryType_eqb (memory_type e) t
  end.

Definition vector_query (cfg : Config) (index : list MemoryEntry)
  (qe : list Q) (uid : jsstring) (n : nat) (tf : option MemoryType)
  : list (MemoryEntry * Q) :=
  firstn n
    (sort_by (fun a b => Qle_bool (snd b) (snd a))
       (map (fun e => (e, similarity cfg qe (embedding e)))
            (filter (in_scope uid tf) index))).

(** Modelled from the spec (4.2):
    [relevance = w1 * raw_similarity + w2 * importance / 10
                 + w3 * recency_factor]. *)
Definition combined_relevance (cfg : Config) (e : MemoryEntry)
  (raw_similarity : Q) (now : Z) : Q :=
  w1 cfg * raw_similarity
  + w2 cfg * (inject_Z (importance e) / 10)
  + w3 cfg * recency_factor cfg (now - last_accessed_at e).

(** Higher relevance first; on equal relevance the more recently accessed
    entry first. *)
Definition ranks_beforeb (a b : ScoredMemory) : bool :=
  Qltb (relevance b) (relevance a)
  || (Qeq_bool (relevance a) (relevance b)
      && (last_accessed_at (entry b) <=? last_accessed_at (entry a))%Z).

Definition ranks_before (a b : ScoredMemory) : Prop :=
  relevance b < relevance a
  \/ (relevance a == relevance b
      /\ (last_accessed_at (entry b) <= last_accessed_at (entry a))%Z).

(** Modelled from the spec (4.1): candidates are the index's top [4*k];
    they are re-scored and the best [k] returned. *)
Definition retrieve (cfg : Config) (index : list MemoryEntry) (now : Z)
  (q : RetrievalQuery) : list ScoredMemory :=
  let candidates :=
    vector_query cfg index (embed cfg (query_text q)) (q_user_id q)
                 (4 * k q) (type_filter q) in
  firstn (k q)
    (sort_by ranks_beforeb
       (map (fun c => {| entry := fst c;
                         relevance := combined_relevance cfg (fst c) (snd c) now |})
            candidates)).

(** Modelled from the spec (4.1): every returned entry is marked as
    accessed at [now]. *)
Definition touch (now : Z) (returned : list ScoredMemory)
  (index : list MemoryEntry) : list MemoryEntry :=
  map (fun e =>
         if existsb (fun r => Z.eqb (entry_id (entry r)) (entry_id e)) returned
         then {| entry_id := entry_id e; user_id := user_id e; content := content e;
                 memory_type := memory_type e; importance := importance e;
                 embedding := embedding e; created_at := created_at e;
                 last_accessed_at := now;
                 access_count := (access_count e + 1)%Z |}
         else e)
      index.

Definition retrieve_and_touch (cfg : Config) (index : list MemoryEntry)
  (now : Z) (q : RetrievalQuery) : list ScoredMemory * list MemoryEntry :=
  let returned := retrieve cfg index now q in
  (returned, touch now returned index).

(** Modelled from the spec (4.2): the importance less a step proportional
    to the idle time, not below 0, and not below the protected minimum
    for an entry accessed at least [protected_threshold] times. *)
Definition decay_step (cfg : Config) (e : MemoryEntry) (now : Z) : Z :=
  (Z.of_N (decay_points cfg) * Z.max 0 (now - last_accessed_at e)
   / Z.pos (decay_period cfg))%Z.

Definition decay_floor (cfg : Config) (e : MemoryEntry) : Z :=
  if (protected_threshold cfg <=? access_count e)%Z then protected_minimum
  else 0%Z.

Definition decayed_importance (cfg : Config) (e : MemoryEntry) (now : Z) : Z :=
  Z.max (decay_floor cfg e) (importance e - decay_step cfg e now)%Z.

(** A configuration and an index used in the examples: weights
    0.6 / 0.25 / 0.15, one importance point lost per 30 idle time units,
    entries accessed 5 times or more protected; two users. *)
Definition sampleConfig : Config :=
  {| embed := fun _ => [];
     similarity := fun _ v => match v with x :: _ => x | [] => 0 end;
     recency_factor := fun dt => if (dt <=? 30)%Z then 1 else 1 # 2;
     w1 := 6 # 10; w2 := 25 # 100; w3 := 15 # 100;
     decay_points := 1; decay_period := 30;
     protected_threshold := 5 |}.

Definition hiking : MemoryEntry :=
  {| entry_id := 1; user_id := lit "alex"; content := lit "I love hiking";
     memory_type := interest; importance := 6; embedding := [9 # 10];
     created_at := 0; last_accessed_at := 10; access_count := 5 |}.

Definition alexName : MemoryEntry :=
  {| entry_id := 2; user_id := lit "alex"; content := lit "My name is Alex";
     memory_type := fact; importance := 9; embedding := [5 # 10];
     created_at := 0; last_accessed_at := 20; access_count := 1 |}.

Definition samTea : MemoryEntry :=
  {| entry_id := 3; user_id := lit "sam"; content := lit "I drink tea";
     memory_type := preference; importance := 4; embedding := [1];
     created_at := 0; last_accessed_at := 30; access_count := 0 |}.

Definition sampleIndex : list MemoryEntry := [hiking; samTea; alexName].

Definition alexQuery : RetrievalQuery :=
  {| q_user_id := lit "alex"; query_text := lit "What is my name?";
     k := 5; type_filter := None |}.

(** A user without memories, and a query that asks for no result. *)
Definition patQuery : RetrievalQuery :=
  {| q_user_id := lit "pat"; query_text := lit "hello";
     k := 3; type_filter := None |}.

Definition zeroQuery : RetrievalQuery :=
  {| q_user_id := lit "alex"; query_text := lit "hello";
     k := 0; type_filter := None |}.

End Memory.

(** ** Retrieval: the score an entry must carry *)

(** The combined relevance of an entry for a query at a time: the scorer
    applied to the entry and to its raw similarity with the query. *)
Definition combined_score (cfg : Memory.Config) (now : Z)
  (q : Memory.RetrievalQuery) (e : Memory.MemoryEntry) : Q :=
  Memory.combined_relevance cfg e
    (Memory.similarity cfg (Memory.embed cfg (Memory.query_text q))
                       (Memory.embedding e))
    now.

(** The candidates of a query: the entries the index hands back. *)
Definition candidates (cfg : Memory.Config) (index : list Memory.MemoryEntry)
  (q : Memory.RetrievalQuery) : list Memory.MemoryEntry :=
  map fst
    (Memory.vector_query cfg index (Memory.embed cfg (Memory.query_text q))
       (Memory.q_user_id q) (4 * Memory.k q) (Memory.type_filter q)).

(** Higher combined relevance first; on equal relevance the more recently
    accessed entry first. *)
Definition outranks (cfg : Memory.Config) (now : Z)
  (q : Memory.RetrievalQuery) (a b : Memory.MemoryEntry) : Prop :=
  (combined_score cfg now q b < combined_score cfg now q a)%Q
  \/ (combined_score cfg now q a == combined_score cfg now q b
      /\ (Memory.last_accessed_at b <= Memory.last_accessed_at a)%Z)%Q.

(** ** ChatContext: formatting a loaded history *)

(** A row of [chatAPI.getChatHistory]; [hist_id] is the row's id as the
    template literal prints it. *)
Record HistoryRow := {
  hist_id : jsstring;
  hist_message : jsstring;
  hist_response : jsstring;
  hist_timestamp : jsstring;
  hist_tone_detected : option jsstring;
  hist_emotion_score : option Emotions
}.

(** The objects that [loadChatHistory] builds: the bot half has
    [tone_used] and [emotion_detected] and none of the other metadata. *)
Record FormattedMessage := {
  fm_id : jsstring;
  fm_message : jsstring;
  fm_response : option jsstring;
  fm_timestamp : jsstring;
  fm_isUser : bool;
  fm_tone_used : option jsstring;
  fm_emotion_detected : option Emotions
}.

(** The callback of [history.flatMap]. *)
Definition formatRow (msg : HistoryRow) : list FormattedMessage :=
  [ {| fm_id := hist_id msg ++ lit "-user";
       fm_message := hist_message msg;
       fm_response := None;
       fm_timestamp := hist_timestamp msg;
       fm_isUser := true;
       fm_tone_used := None;
       fm_emotion_detected := None |};
    {| fm_id := hist_id msg ++ lit "-bot";
       fm_message := hist_message msg;
       fm_response := Some (hist_response msg);
       fm_timestamp := hist_timestamp msg;
       fm_isUser := false;
       fm_tone_used := hist_tone_detected msg;
       fm_emotion_detected := hist_emotion_score msg |} ].

Definition formattedMessages (history : list HistoryRow)
  : list FormattedMessage :=
  flat_map formatRow history.

(** ** Regular expressions of the registration form *)

Module Regex.

(** Patterns over code units, as far as the two literals of
    [validateForm] need them. *)
Inductive re :=
| Never
| Empty
| Class (p : code_unit -> bool)
| Seq (a b : re)
| Alt (a b : re)
| Star (a : re).

(** [a+] *)
Definition Plus (a : re) : re := Seq a (Star a).

Fixpoint nullable (r : re) : bool :=
  match r with
  | Never => false
  | Empty => true
  | Class _ => false
  | Seq a b => nullable a && nullable b
  | Alt a b => nullable a || nullable b
  | Star _ => true
  end.

Fixpoint deriv (c : code_unit) (r : re) : re :=
  match r with
  | Never => Never
  | Empty => Never
  | Class p => if p c then Empty else Never
  | Seq a b =>
      Alt (Seq (deriv c a) b) (if nullable a then deriv c b else Never)
  | Alt a b => Alt (deriv c a) (deriv c b)
  | Star a => Seq (deriv c a) (Star a)
  end.

(** [/^r$/.test(s)]: the whole string matches [r]. *)
Fixpoint test (r : re) (s : jsstring) : bool :=
  match s with
  | [] => nullable r
  | c :: t => test (deriv c r) t
  end.

(** The strings of a pattern. *)
Inductive Matches : re -> jsstring -> Prop :=
| MEmpty : Matches Empty []
| MClass p c : p c = true -> Matches (Class p) [c]
| MSeq a b s t : Matches a s -> Matches b t -> Matches (Seq a b) (s ++ t)
| MAltL a b s : Matches a s -> Matches (Alt a b) s
| MAltR a b s : Matches b s -> Matches (Alt a b) s
| MStarNil a : Matches (Star a) []
| MStarApp a s t :
    Matches a s -> Matches (Star a) t -> Matches (Star a) (s ++ t).

End Regex.

(** ** Register page *)

Module Register.

Record FormData := {
  email : jsstring;
  username : jsstring;
  full_name : jsstring;
  password : jsstring;
  confirm_password : jsstring
}.

(** [[a-zA-Z0-9_-]] *)
Definition username_char (c : code_unit) : bool :=
  (N.leb 97 c && N.leb c 122) || (N.leb 65 c && N.leb c 90)
  || (N.leb 48 c && N.leb c 57) || N.eqb c 95 || N.eqb c 45.

(** [[^\s@]] *)
Definition email_char (c : code_unit) : bool :=
  negb (is_whitespace c || N.eqb c 64).

Definition at_sign (c : code_unit) : bool := N.eqb c 64.
Definition dot (c : code_unit) : bool := N.eqb c 46.

(** [/^[a-zA-Z0-9_-]+$/] *)
Definition username_re : Regex.re := Regex.Plus (Regex.Class username_char).

(** [/^[^\s@]+@[^\s@]+\.[^\s@]+$/] *)
Definition email_re : Regex.re :=
  Regex.Seq (Regex.Plus (Regex.Class email_char))
    (Regex.Seq (Regex.Class at_sign)
       (Regex.Seq (Regex.Plus (Regex.Class email_char))
          (Regex.Seq (Regex.Class dot)
             (Regex.Plus (Regex.Class email_char))))).

(** [validateForm]: [None] when it returns true, otherwise the message it
    passes to [setError] before returning false. *)
Definition validateForm (formData : FormData) : option jsstring :=
  if negb (JS.eqb (password formData) (confirm_password formData))
  then Some (lit "Passwords do not match")
  else if Nat.ltb (List.length (password formData)) 8
  then Some (lit "Password must be at least 8 characters long")
  else if negb (Regex.test username_re (username formData))
  then Some (lit "Username must be alphanumeric")
  else if negb (Regex.test email_re (email formData))
  then Some (lit "Please enter a valid email address")
  else None.

(** A string all of whose code units satisfy [p], and not empty. *)
Definition nonempty_all (p : code_unit -> bool) (s : jsstring) : Prop :=
  s <> [] /\ forallb p s = true.

(** The shape [local@domain.tld] that the email pattern describes. *)
Definition email_shape (s : jsstring) : Prop :=
  exists a b c,
    s = a ++ 64%N :: b ++ 46%N :: c
    /\ nonempty_all email_char a
    /\ nonempty_all email_char b
    /\ nonempty_all email_char c.

Definition sampleForm : FormData :=
  {| email := lit "alex@example.org"; username := lit "alex_01";
     full_name := lit "Alex"; password := lit "correct horse";
     confirm_password := lit "correct horse" |}.

End Register.

(** ** AuthContext *)

Module Auth.

(** A value read from a response: a string, or any other value (undefined,
    null, a number, a list of validation errors, ...) given by the string
    that [String(v)] makes of it and by its truthiness. *)
Inductive Value :=
| Str (s : jsstring)
| NotStr (printed : jsstring) (truthy_value : bool).

Definition undefined : Value := NotStr (lit "undefined") false.

(** The string that [localStorage.setItem] stores for a value. *)
Definition to_string (v : Value) : jsstring :=
  match v with
  | Str s => s
  | NotStr printed _ => printed
  end.

Definition is_truthy (v : Value) : bool :=
  match v with
  | Str s => truthy s
  | NotStr _ t => t
  end.

(** The [token] entry of [localStorage] and the provider's two state
    cells; a user object is its [token]. *)
Record State := {
  stored_token : option jsstring;
  currentUser : option Value;
  loading : bool
}.

(** The rejected request as [login] and [register] read it:
    [error.response?.data?.detail], undefined when there is none. *)
Record AxiosError := {
  detail : Value
}.

(** [{ success, error }]; [error] is absent on success. *)
Record Result := {
  success : bool;
  error : option Value
}.

(** [d || fallback] *)
Definition detail_or (d : Value) (fallback : jsstring) : Value :=
  if is_truthy d then d else Str fallback.

(** The effect run once when the provider mounts. *)
Definition on_mount (st : State) : State :=
  {| stored_token := stored_token st;
     currentUser :=
       match stored_token st with
       | Some t => if truthy t then Some (Str t) else currentUser st
       | None => currentUser st
       end;
     loading := false |}.

(** What [axios.post] gives [login]: a rejection, or a response whose
    [data] is null or undefined ([NoData]: the destructuring throws inside
    the [try]), or a response with data, of which [login] reads
    [access_token] (undefined when the field is missing). *)
Inductive LoginAnswer :=
| Refused (e : AxiosError)
| NoData
| Data (access_token : Value).

Definition login (answer : LoginAnswer) (st : State) : Result * State :=
  match answer with
  | Data access_token =>
      ({| success := true; error := None |},
       {| stored_token := Some (to_string access_token);
          currentUser := Some access_token;
          loading := loading st |})
  | Refused e =>
      ({| success := false;
          error := Some (detail_or (detail e) (lit "Login failed")) |}, st)
  | NoData =>
      ({| success := false;
          error := Some (detail_or undefined (lit "Login failed")) |}, st)
  end.

Definition register (answer : AxiosError + unit) (st : State)
  : Result * State :=
  match answer with
  | inr _ => ({| success := true; error := None |}, st)
  | inl e =>
      ({| success := false;
          error := Some (detail_or (detail e) (lit "Registration failed")) |},
       st)
  end.

Definition logout (st : State) : State :=
  {| stored_token := None; currentUser := None; loading := loading st |}.

(** The calls a page can make on the context. *)
Inductive Request :=
| Login (answer : LoginAnswer)
| RegisterUser (answer : AxiosError + unit)
| Logout.

Definition step (st : State) (r : Request) : State :=
  match r with
  | Login answer => snd (login answer st)
  | RegisterUser answer => snd (register answer st)
  | Logout => logout st
  end.

(** The current user is the one whose token is stored. *)
Definition consistent (st : State) : Prop :=
  currentUser st = option_map Str (stored_token st).

(** A request whose answer, if it is an accepted login, carries a string
    as [access_token]. *)
Definition string_token (r : Request) : Prop :=
  match r with
  | Login (Data (NotStr _ _)) => False
  | _ => True
  end.

Definition freshTab (stored : option jsstring) : State :=
  {| stored_token := stored; currentUser := None; loading := true |}.

End Auth.

(** ** UserProfile: what a listed memory shows *)

(** [memory.metadata?.memory_type || 'fact'] *)
Definition displayed_memory_type (m : MemoryItem) : jsstring :=
  match m with
  | Listed _ _ (Some md) =>
      match meta_memory_type md with
      | Some t => if truthy t then t else lit "fact"
      | None => lit "fact"
      end
  | _ => lit "fact"
  end.

(** [memory.metadata?.importance_score || 1] *)
Definition displayed_importance (m : MemoryItem) : Z :=
  match m with
  | Listed _ _ (Some md) =>
      match meta_importance_score md with
      | Some z => if Z.eqb z 0 then 1%Z else z
      | None => 1%Z
      end
  | _ => 1%Z
  end.

(** An environment like [online] whose memory listing is rejected. *)
Definition listing_down : Handler unit :=
  fun A (op : Op A) (w : unit) =>
    match op in Op T return T * unit -> T * unit with
    | GetUserMemoriesApi _ _ => fun _ => (Rejected network_error, w)
    | _ => fun r => r
    end ((online : Handler unit) A op w).

(** ** UserContext: creating or loading the user at start-up *)

(** The two requests of [createUser] and [loadUser], an environment that
    answers them, and what a finished run leaves behind.  The two handlers
    call each other, so they take a bound on the number of requests;
    [None] means that the bound was reached with a request still to be
    sent. *)
Inductive UserRequest :=
| CreateUserApi (user_id : jsstring)
| GetUserApi (user_id : jsstring).

Definition UserBackend (W : Type) :=
  UserRequest -> W -> api_result UserContext.User * W.

Record Boot (W : Type) := {
  boot_world : W;
  boot_state : UserContext.State;
  boot_requests : list UserRequest
}.

Definition after_request {W} (r : UserRequest) (b : Boot W) : Boot W :=
  {| boot_world := boot_world b; boot_state := boot_state b;
     boot_requests := r :: boot_requests b |}.

(** Neither handler awaits the other: [loadUser] lowers the loading flag
    before the answer to the [createUser] it started arrives. *)
Fixpoint createUser {W} (fuel : nat) (h : UserBackend W) (uid : jsstring)
  (w : W) (st : UserContext.State) : option (Boot W) :=
  match fuel with
  | O => None
  | S fuel' =>
      let (r, w1) := h (CreateUserApi uid) w in
      option_map (after_request (CreateUserApi uid))
        match r with
        | Resolved u =>
            Some {| boot_world := w1;
                    boot_state :=
                      UserContext.userReducer st
                        (UserContext.SET_USER (Some u));
                    boot_requests := [] |}
        | Rejected _ => loadUser fuel' h uid w1 st
        end
  end
with loadUser {W} (fuel : nat) (h : UserBackend W) (uid : jsstring)
  (w : W) (st : UserContext.State) : option (Boot W) :=
  match fuel with
  | O => None
  | S fuel' =>
      let st1 := UserContext.userReducer st (UserContext.SET_LOADING true) in
      let (r, w1) := h (GetUserApi uid) w in
      option_map (after_request (GetUserApi uid))
        match r with
        | Resolved u =>
            Some {| boot_world := w1;
                    boot_state :=
                      UserContext.userReducer
                        (UserContext.userReducer st1
                           (UserContext.SET_USER (Some u)))
                        (UserContext.SET_LOADING false);
                    boot_requests := [] |}
        | Rejected e =>
            let st2 :=
              UserContext.userReducer st1 (UserContext.SET_LOADING false) in
            match status e with
            | Some 404%Z => createUser fuel' h uid w1 st2
            | _ =>
                Some {| boot_world := w1; boot_state := st2;
                        boot_requests := [] |}
            end
        end
  end.

(** A backend on which creating a user always fails and the user is
    never found. *)
Definition refuses_and_misses {W} (h : UserBackend W) : Prop :=
  (forall uid w, exists e w', h (CreateUserApi uid) w = (Rejected e, w'))
  /\ (forall uid w, exists e w',
         h (GetUserApi uid) w = (Rejected e, w') /\ status e = Some 404%Z).

Definition stubborn : UserBackend unit :=
  fun r w =>
    match r with
    | CreateUserApi _ =>
        (Rejected {| status := Some 422%Z;
                     err_message := lit "Request failed with status code 422" |},
         w)
    | GetUserApi _ => (Rejected not_found, w)
    end.

Definition unreachable : UserBackend unit :=
  fun _ w => (Rejected network_error, w).

(** ** Vocabulary of the statements about the chat reducer *)

(** The actions that can drop messages, and what an action appends. *)
Definition replaces_messages (a : ChatAction) : bool :=
  match a with
  | SET_MESSAGES _ | CLEAR_MESSAGES | DELETE_SESSION _ => true
  | _ => false
  end.

Definition appended (a : ChatAction) : list Message :=
  match a with
  | ADD_MESSAGE m => [m]
  | _ => []
  end.

(** The bot message that [sendMessage] builds from a response. *)
Definition bot_message (bid bts msg : jsstring) (r : ChatResponse) : Message :=
  {| id := bid; message := msg; response := Some (resp_response r);
     timestamp := bts; isUser := false; bot := Some (resp_bot r) |}.

Definition sampleSession (sid : string) : Session :=
  {| session_id := lit sid; session_title := lit "Untitled" |}.

Definition sampleRow (i m : string) : HistoryRow :=
  {| hist_id := lit i; hist_message := lit m; hist_response := lit "ok";
     hist_timestamp := lit "t"; hist_tone_detected := None;
     hist_emotion_score := None |}.

Definition sampleMessage (txt : string) : Message :=
  {| id := lit txt; message := lit txt; response := None;
     timestamp := lit "t"; isUser := true; bot := None |}.

(** * Properties *)

Unset Implicit Arguments.

(** ** Strings *)

Lemma eqb_eq (a b : jsstring) : JS.eqb a b = true <-> a = b.
Proof.
  unfold JS.eqb. destruct (list_eq_dec N.eq_dec a b); split;
    congruence.
Qed.

Lemma eqb_neq (a b : jsstring) : JS.eqb a b = false <-> a <> b.
Proof.
  unfold JS.eqb. destruct (list_eq_dec N.eq_dec a b); split;
    congruence.
Qed.

Lemma eqb_refl (a : jsstring) : JS.eqb a a = true.
Proof. now apply eqb_eq. Qed.

Lemma trimStart_whitespace (s : jsstring) :
  forallb is_whitespace s = true -> trimStart s = [].
Proof.
  induction s as [|c r IH]; simpl; [reflexivity|].
  intros H. apply andb_prop in H as [Hc Hr]. rewrite Hc. now apply IH.
Qed.

Lemma trim_whitespace (s : jsstring) :
  forallb is_whitespace s = true -> trim s = [].
Proof.
  intros H. unfold trim, trimEnd.
  now rewrite (trimStart_whitespace s H).
Qed.

Lemma trimStart_suffix (s : jsstring) : exists p, s = p ++ trimStart s
  /\ forallb is_whitespace p = true.
Proof.
  induction s as [|c r [p [Hp Hw]]]; simpl.
  - now exists [].
  - destruct (is_whitespace c) eqn:E.
    + exists (c :: p). simpl. rewrite E, Hw. split; [now f_equal|reflexivity].
    + now exists [].
Qed.

(** The converse: a string that trims to the empty string is all
    whitespace, so the guard rejects exactly the blank contents. *)
Lemma trim_empty_whitespace (s : jsstring) :
  trim s = [] -> forallb is_whitespace s = true.
Proof.
  unfold trim, trimEnd. intros H.
  destruct (trimStart_suffix s) as [p [Hs Hp]].
  destruct (trimStart_suffix (rev (trimStart s))) as [p' [Hs' Hp']].
  assert (E : trimStart (rev (trimStart s)) = []).
  { apply (f_equal (@rev _)) in H. now rewrite rev_involutive in H. }
  rewrite E, app_nil_r in Hs'.
  rewrite Hs, forallb_app, Hp. simpl.
  rewrite <- (rev_involutive (trimStart s)), Hs'.
  rewrite forallb_forall in *. intros x Hx. apply Hp'.
  now apply in_rev.
Qed.

(** ** The chat reducer *)

(** C9: [DELETE_SESSION] keeps, in order, exactly the sessions whose
    [session_id] differs from the payload; when the payload is the current
    session the current id becomes null and the messages empty, otherwise
    both are kept; the four other fields are never touched. *)
Theorem delete_session_reducer (state : ChatState) (p : jsstring) :
  let s' := chatReducer state (DELETE_SESSION p) in
  sessions s'
    = filter (fun s => negb (JS.eqb (session_id s) p)) (sessions state)
  /\ (forall s, In s (sessions s')
                <-> In s (sessions state) /\ session_id s <> p)
  /\ (currentSessionId state = Some p ->
      currentSessionId s' = None /\ messages s' = [])
  /\ (currentSessionId state <> Some p ->
      currentSessionId s' = currentSessionId state
      /\ messages s' = messages state)
  /\ isLoading s' = isLoading state
  /\ isTyping s' = isTyping state
  /\ error s' = error state
  /\ analytics s' = analytics state.
Proof.
  cbn. split; [reflexivity|]. split; [|split; [|split]].
  - intros s. rewrite filter_In, negb_true_iff, eqb_neq. tauto.
  - intros H. rewrite H. cbn. now rewrite eqb_refl.
  - intros H.
    assert (E : is_current (currentSessionId state) p = false).
    { destruct (currentSessionId state) as [c|]; cbn; [|reflexivity].
      apply eqb_neq. congruence. }
    now rewrite E.
  - repeat split.
Qed.

(** Deleting the current session [s1] out of [s1; s2]. *)
Lemma delete_session_reducer_witness :
  let state :=
    {| messages := []; currentSessionId := Some (lit "s1");
       sessions := [ {| session_id := lit "s1"; session_title := lit "a" |};
                     {| session_id := lit "s2"; session_title := lit "b" |} ];
       isLoading := false; isTyping := false; error := None;
       analytics := None |} in
  currentSessionId state = Some (lit "s1")
  /\ currentSessionId (chatReducer state (DELETE_SESSION (lit "s1"))) = None
  /\ sessions (chatReducer state (DELETE_SESSION (lit "s1")))
     = [ {| session_id := lit "s2"; session_title := lit "b" |} ].
Proof.
  intros state.
  pose proof (delete_session_reducer state (lit "s1")) as [Hs [_ [Hc _]]].
  split; [reflexivity|]. split.
  - exact (proj1 (Hc eq_refl)).
  - rewrite Hs. reflexivity.
Defined.

(** ** Running the handlers *)

(** C4: when the content of the form is empty or only whitespace,
    [handleAddMemory] returns after [preventDefault]: nothing is sent to
    the backend and no state changes; the same holds for a click on the
    submit button. *)
Theorem blank_memory_rejected {W} (h : Handler W) (w : W)
  (s live : AppState) :
  forallb is_whitespace (content (newMemory (form s))) = true ->
  run h (handleAddMemory s) w live
    = {| result := Fulfilled; world := w; app := live;
         trace := [EvUi PreventDefault] |}
  /\ (let o := run h (on_event s ClickSubmit) w live in
      world o = w /\ app o = live
      /\ forall e, In e (trace o) -> e = EvUi PreventDefault).
Proof.
  intros Hblank.
  assert (E : run h (handleAddMemory s) w live
              = {| result := Fulfilled; world := w; app := live;
                   trace := [EvUi PreventDefault] |}).
  { unfold handleAddMemory. rewrite (trim_whitespace _ Hblank). reflexivity. }
  split; [exact E|].
  unfold on_event.
  destruct (showAddMemory (form s)); [|cbn; intuition].
  destruct (form_valid (newMemory (form s))); [|cbn; intuition].
  rewrite E. cbn. intuition.
Qed.

(** A form holding three spaces, submitted while the backend accepts
    everything. *)
Lemma blank_memory_rejected_witness :
  let s := apply_update
             (SetNewMemory (onContentChange defaultNewMemory (lit "   ")))
             (apply_update (SetShowAddMemory true) signedIn) in
  run online (handleAddMemory s) tt s
    = {| result := Fulfilled; world := tt; app := s;
         trace := [EvUi PreventDefault] |}.
Proof.
  intros s. apply (blank_memory_rejected online tt s s). reflexivity.
Defined.

(** A content with a visible character does reach the backend. *)
Lemma nonblank_memory_submitted {W} (h : Handler W) (w : W)
  (s live : AppState) (uid : jsstring) :
  truthy (trim (content (newMemory (form s)))) = true ->
  truthy_userId (usr s) = Some uid ->
  exists rest,
    trace (run h (handleAddMemory s) w live)
    = EvUi PreventDefault
      :: EvCall (AddUserMemoryApi uid (newMemory (form s))) :: rest.
Proof.
  intros Ht Hu. unfold handleAddMemory, addMemory, await.
  rewrite Ht, Hu. cbn.
  destruct (h _ (AddUserMemoryApi uid (newMemory (form s))) w) as [r w'].
  cbn. eexists. reflexivity.
Qed.

(** No event of a short explicit trace is a [SET_TYPING] dispatch. *)
Ltac no_typing_event :=
  let b := fresh "b" in
  let H := fresh "H" in
  intros b H; cbn in H;
  repeat (destruct H as [H|H]; [discriminate H|]); exact H.

(** C8: for a text that is not blank, [sendMessage] appends the user's
    message and raises the typing flag before it calls the backend, and
    lowers the flag as its last step whatever the backend answers; when
    the call is rejected the user's message stays in the list, no bot
    message is added and the error field holds the error's message. *)
Theorem sendMessage_typing_and_failure {W} (h : Handler W) (w : W)
  (state : ChatState) (live : AppState) (msg uid : jsstring) :
  truthy (trim msg) = true ->
  let o := run h (sendMessage state msg uid) w live in
  let um := sent_user_message h w msg in
  (exists rest,
      trace o
      = [ EvCall Uuidv4; EvCall NowISOString;
          EvUpdate (ChatDispatch (ADD_MESSAGE um));
          EvUpdate (ChatDispatch (SET_TYPING true));
          EvCall (SendMessageApi (sent_request state msg uid)) ]
        ++ rest ++ [ EvUpdate (ChatDispatch (SET_TYPING false)) ]
      /\ forall b, ~ In (EvUpdate (ChatDispatch (SET_TYPING b))) rest)
  /\ isTyping (chat (app o)) = false
  /\ result o = Fulfilled
  /\ (forall e, backend_answer h w state msg uid = Rejected e ->
        messages (chat (app o)) = messages (chat live) ++ [um]
        /\ error (chat (app o)) = Some (err_message e)).
Proof.
  intros Hmsg. unfold sendMessage, sent_user_message, backend_answer.
  rewrite Hmsg. cbn.
  fold (sent_request state msg uid).
  destruct (h _ Uuidv4 w) as [mid w1]. cbn.
  destruct (h _ NowISOString w1) as [ts w2]. cbn.
  destruct (h _ (SendMessageApi (sent_request state msg uid)) w2)
    as [[response|e] w3]; cbn.
  - destruct (h _ Uuidv4 w3) as [bid w4]. cbn.
    destruct (h _ NowISOString w4) as [bts w5]. cbn.
    set (botMessage := Build_Message bid msg _ bts false _).
    destruct (is_current (currentSessionId state) (resp_session_id response));
      cbn.
    + split; [|repeat split; discriminate].
      exists [ EvCall Uuidv4; EvCall NowISOString;
               EvUpdate (ChatDispatch (ADD_MESSAGE botMessage)) ].
      split; [reflexivity|]. no_typing_event.
    + destruct (h _ (GetSessionsApi uid) w5) as [[l|e] w6]; cbn.
      * split; [|repeat split; discriminate].
        exists [ EvCall Uuidv4; EvCall NowISOString;
                 EvUpdate (ChatDispatch (ADD_MESSAGE botMessage));
                 EvUpdate (ChatDispatch
                   (SET_CURRENT_SESSION (Some (resp_session_id response))));
                 EvCall (GetSessionsApi uid);
                 EvUpdate (ChatDispatch (SET_SESSIONS l)) ].
        split; [reflexivity|]. no_typing_event.
      * split; [|repeat split; discriminate].
        exists [ EvCall Uuidv4; EvCall NowISOString;
                 EvUpdate (ChatDispatch (ADD_MESSAGE botMessage));
                 EvUpdate (ChatDispatch
                   (SET_CURRENT_SESSION (Some (resp_session_id response))));
                 EvCall (GetSessionsApi uid);
                 EvUi (ConsoleError (lit "Error loading sessions:") e);
                 EvUi (ToastError (lit "Failed to load chat sessions")) ].
        split; [reflexivity|]. no_typing_event.
  - split; [|repeat split; congruence].
    exists [ EvUi (ConsoleError (lit "Error sending message:") e);
             EvUi (ToastError
                     (lit "Failed to send message. Please try again."));
             EvUpdate (ChatDispatch (SET_ERROR (Some (err_message e)))) ].
    split; [reflexivity|]. no_typing_event.
Qed.

(** A first message sent while the backend is unreachable. *)
Lemma sendMessage_typing_and_failure_witness :
  let o := run offline (sendMessage initialState (lit "hi") (lit "u1"))
               tt initialApp in
  truthy (trim (lit "hi")) = true
  /\ isTyping (chat (app o)) = false
  /\ messages (chat (app o)) = [ sent_user_message offline tt (lit "hi") ]
  /\ error (chat (app o)) = Some (lit "Network Error").
Proof.
  intros o.
  destruct (sendMessage_typing_and_failure offline tt initialState initialApp
              (lit "hi") (lit "u1") eq_refl) as [_ [Ht [_ Hf]]].
  destruct (Hf network_error eq_refl) as [Hm He].
  repeat split; assumption.
Defined.

(** ** Deleting what the backend does not have *)

Lemma deleteSession_rejected {W} (h : Handler W) (w w' : W)
  (live : AppState) (sid : jsstring) (e : ApiError) :
  h _ (DeleteSessionApi sid) w = (Rejected e, w') ->
  run h (deleteSession sid) w live
  = {| result := Fulfilled; world := w'; app := live;
       trace := [ EvCall (DeleteSessionApi sid);
                  EvUi (ConsoleError (lit "Error deleting session:") e);
                  EvUi (ToastError (lit "Failed to delete session")) ] |}.
Proof. intros H. unfold deleteSession. cbn. rewrite H. reflexivity. Qed.

Lemma deleteMemory_rejected {W} (h : Handler W) (w w' : W)
  (state : UserContext.State) (live : AppState) (uid mid : jsstring) (e : ApiError) :
  truthy_userId state = Some uid ->
  h _ (DeleteUserMemoryApi uid mid) w = (Rejected e, w') ->
  run h (deleteMemory state mid) w live
  = {| result := Fulfilled; world := w'; app := live;
       trace := [ EvCall (DeleteUserMemoryApi uid mid);
                  EvUi (ConsoleError (lit "Error deleting memory:") e);
                  EvUi (ToastError (lit "Failed to delete memory")) ] |}.
Proof.
  intros Hu H. unfold deleteMemory. rewrite Hu. cbn. rewrite H. reflexivity.
Qed.

(** C5, as the code has it: a delete of a session or memory id that the
    backend does not hold is answered NotFound; the handler catches it,
    logs it, shows an error toast and returns normally, so the promise
    given to the caller is fulfilled.  The backend store and the whole
    client state (sessions, current session id, messages, memories) are
    as before the call. *)
Theorem delete_missing_leaves_state {W} (base : Handler W) (st : Store)
  (w : W) (live : AppState) :
  (forall sid,
      existsb (JS.eqb sid) (stored_sessions st) = false ->
      run (store_backend base) (deleteSession sid) (st, w) live
      = {| result := Fulfilled; world := (st, w); app := live;
           trace := [ EvCall (DeleteSessionApi sid);
                      EvUi (ConsoleError (lit "Error deleting session:")
                                         not_found);
                      EvUi (ToastError (lit "Failed to delete session")) ] |})
  /\ (forall state uid mid,
      truthy_userId state = Some uid ->
      existsb (pair_eqb (uid, mid)) (stored_memories st) = false ->
      run (store_backend base) (deleteMemory state mid) (st, w) live
      = {| result := Fulfilled; world := (st, w); app := live;
           trace := [ EvCall (DeleteUserMemoryApi uid mid);
                      EvUi (ConsoleError (lit "Error deleting memory:")
                                         not_found);
                      EvUi (ToastError (lit "Failed to delete memory")) ] |}).
Proof.
  split.
  - intros sid H. apply deleteSession_rejected.
    cbn. unfold store_delete_session. now rewrite H.
  - intros state uid mid Hu H. apply deleteMemory_rejected; [exact Hu|].
    cbn. unfold store_delete_memory. now rewrite H.
Qed.

Lemma delete_missing_leaves_state_witness :
  app (run (store_backend online) (deleteSession (lit "s9"))
           (sampleStore, tt) signedIn) = signedIn
  /\ world (run (store_backend online) (deleteMemory (usr signedIn) (lit "m9"))
                (sampleStore, tt) signedIn) = (sampleStore, tt).
Proof.
  destruct (delete_missing_leaves_state online sampleStore tt signedIn)
    as [Hs Hm].
  split.
  - rewrite (Hs (lit "s9") eq_refl). reflexivity.
  - rewrite (Hm (usr signedIn) (lit "u1") (lit "m9") eq_refl eq_refl).
    reflexivity.
Defined.

(** C5 as stated fails: deleting the unknown session [s9] settles exactly
    like a successful delete of [s1]; nothing reaches the caller. *)
Lemma delete_missing_not_signalled :
  existsb (JS.eqb (lit "s9")) (stored_sessions sampleStore) = false
  /\ ~ signalled_to_caller
         (result (run (store_backend online) (deleteSession (lit "s9"))
                      (sampleStore, tt) signedIn))
  /\ result (run (store_backend online) (deleteSession (lit "s9"))
                 (sampleStore, tt) signedIn)
     = result (run (store_backend online) (deleteSession (lit "s1"))
                   (sampleStore, tt) signedIn).
Proof.
  split; [reflexivity|]. split; [|reflexivity].
  intros [e H]. cbn in H. discriminate H.
Qed.

(** ** The manual-add form *)

Lemma submissions_app (t1 t2 : list Event) :
  submissions (t1 ++ t2) = submissions t1 ++ submissions t2.
Proof.
  induction t1 as [|e r IH]; cbn; [reflexivity|].
  destruct (submission e); cbn; now rewrite IH.
Qed.

(** What one event can submit: nothing, or the form's memory as it stood
    when the event arrived, and then only a memory that passed the
    controls' validation. *)
Lemma on_event_submissions {W} (h : Handler W) (ev : UiEvent) (w : W)
  (s live : AppState) :
  let t := trace (run h (on_event s ev) w live) in
  submissions t = []
  \/ exists uid,
       submissions t = [(uid, newMemory (form s))]
       /\ form_valid (newMemory (form s)) = true.
Proof.
  destruct ev; cbn; try (left; reflexivity);
    destruct (showAddMemory (form s)); cbn; try (left; reflexivity).
  destruct (form_valid (newMemory (form s))) eqn:V; cbn;
    [|left; reflexivity].
  unfold handleAddMemory, addMemory, loadMemories, await.
  destruct (truthy (trim (content (newMemory (form s))))); cbn;
    [|left; reflexivity].
  destruct (truthy_userId (usr s)) as [uid|]; cbn; [|left; reflexivity].
  right. exists uid.
  destruct (h _ (AddUserMemoryApi uid (newMemory (form s))) w)
    as [[[]|e] w1]; cbn.
  - destruct (h _ (GetUserMemoriesApi uid None) w1) as [[l|e] w2]; cbn;
      split; reflexivity.
  - split; reflexivity.
Qed.

(** The memory type held by the form after one event: what it was, the
    value of the chosen option, or the default after a submission. *)
Lemma on_event_memory_type {W} (h : Handler W) (ev : UiEvent) (w : W)
  (s : AppState) :
  is_option_value (memory_type (newMemory (form s))) ->
  is_option_value
    (memory_type (newMemory (form (app (run h (on_event s ev) w s))))).
Proof.
  intros Hs.
  destruct ev; cbn; try exact Hs;
    destruct (showAddMemory (form s)); cbn; try exact Hs.
  - now exists o.
  - destruct (form_valid (newMemory (form s))); cbn; [|exact Hs].
    unfold handleAddMemory, addMemory, loadMemories, await.
    destruct (truthy (trim (content (newMemory (form s))))); cbn;
      [|exact Hs].
    destruct (truthy_userId (usr s)) as [uid|]; cbn;
      [|now exists OptPreference].
    destruct (h _ (AddUserMemoryApi uid (newMemory (form s))) w)
      as [[[]|e] w1]; cbn.
    + destruct (h _ (GetUserMemoriesApi uid None) w1) as [[l|e] w2]; cbn;
        now exists OptPreference.
    + now exists OptPreference.
Qed.

Lemma drive_submissions_typed {W} (h : Handler W) (evs : list UiEvent) :
  forall (w : W) (s : AppState),
    is_option_value (memory_type (newMemory (form s))) ->
    Forall (fun d => is_option_value (memory_type (snd d)))
           (submissions (snd (drive h evs w s))).
Proof.
  induction evs as [|ev rest IH]; intros w s Hs; cbn; [constructor|].
  pose proof (on_event_memory_type h ev w s Hs) as Hs'.
  pose proof (on_event_submissions h ev w s s) as Hsub.
  specialize (IH (world (run h (on_event s ev) w s)) _ Hs').
  destruct (drive h rest (world (run h (on_event s ev) w s))
                  (app (run h (on_event s ev) w s))) as [[w' s'] t].
  cbn in *. rewrite submissions_app. apply Forall_app. split; [|exact IH].
  destruct Hsub as [E|[uid [E V]]]; rewrite E; constructor; [|constructor].
  exact Hs.
Qed.

Lemma drive_submissions_valid {W} (h : Handler W) (evs : list UiEvent) :
  forall (w : W) (s : AppState),
    Forall (fun d => form_valid (snd d) = true)
           (submissions (snd (drive h evs w s))).
Proof.
  induction evs as [|ev rest IH]; intros w s; cbn; [constructor|].
  pose proof (on_event_submissions h ev w s s) as Hsub.
  specialize (IH (world (run h (on_event s ev) w s))
                 (app (run h (on_event s ev) w s))).
  destruct (drive h rest (world (run h (on_event s ev) w s))
                  (app (run h (on_event s ev) w s))) as [[w' s'] t].
  cbn in *. rewrite submissions_app. apply Forall_app. split; [|exact IH].
  destruct Hsub as [E|[uid [E V]]]; rewrite E; constructor; [|constructor].
  exact V.
Qed.

(** Apart from NaN, the controls let only 1..10 through: every submitted
    importance is NaN or an integer between 1 and 10. *)
Lemma submitted_importance_range {W} (h : Handler W) (evs : list UiEvent)
  (w : W) (s : AppState) (d : jsstring * NewMemory) :
  In d (submissions (snd (drive h evs w s))) ->
  importance_score (snd d) = NaN
  \/ exists z, importance_score (snd d) = Num z /\ (1 <= z <= 10)%Z.
Proof.
  intros Hd.
  pose proof (drive_submissions_valid h evs w s) as F.
  rewrite Forall_forall in F. specialize (F d Hd).
  unfold form_valid, importance_valid in F.
  apply andb_prop in F as [_ F].
  destruct (importance_score (snd d)) as [|z]; [now left|].
  right. exists z. split; [reflexivity|]. lia.
Qed.

Lemma context_is_no_option : ~ is_option_value (lit "context").
Proof. intros [o H]. destruct o; discriminate H. Qed.

(** C6, as the code has it: the front end knows six memory types, the keys
    of the colour table; the manual-add form offers five of them, every
    memory it submits carries one of the five, each of the five can be
    submitted, and [context] is not among them. *)
Theorem manual_add_memory_types :
  map fst colors = known_memory_types
  /\ (forall t, In t known_memory_types ->
                get colors t <> None /\ getMemoryTypeColor t = get colors t)
  /\ (forall W (h : Handler W) evs w s,
         is_option_value (memory_type (newMemory (form s))) ->
         Forall (fun d => is_option_value (memory_type (snd d)))
                (submissions (snd (drive h evs w s))))
  /\ (forall o,
         submissions (snd (drive online (add_with_type o) tt signedIn))
         = [ (lit "u1",
              {| content := lit "likes tea"; memory_type := option_value o;
                 importance_score := Num 5 |}) ])
  /\ (forall o, In (option_value o) known_memory_types)
  /\ ~ is_option_value (lit "context").
Proof.
  split; [reflexivity|]. split; [|split; [|split; [|split]]].
  - intros t H. cbn in H.
    repeat (destruct H as [H|H]; [subst t; split; [discriminate|reflexivity]|]).
    destruct H.
  - intros W h evs w s. apply drive_submissions_typed.
  - intros o. destruct o; reflexivity.
  - intros o. destruct o; cbn; tauto.
  - exact context_is_no_option.
Qed.

(** A goal added from the initial form. *)
Lemma manual_add_memory_types_witness :
  is_option_value (memory_type (newMemory (form signedIn)))
  /\ Forall (fun d => is_option_value (memory_type (snd d)))
            (submissions (snd (drive online (add_with_type OptGoal) tt
                                     signedIn))).
Proof.
  assert (H : is_option_value (memory_type (newMemory (form signedIn))))
    by (now exists OptPreference).
  split; [exact H|].
  destruct manual_add_memory_types as [_ [_ [F _]]].
  exact (F unit online (add_with_type OptGoal) tt signedIn H).
Defined.

(** C6 as stated fails for [context]: no sequence of user events makes
    the form submit a memory of that type. *)
Lemma context_not_assignable :
  In (lit "context") known_memory_types
  /\ ~ exists evs d,
        In d (submissions (snd (drive online evs tt signedIn)))
        /\ memory_type (snd d) = lit "context".
Proof.
  split; [cbn; tauto|].
  intros [evs [d [Hd Ht]]].
  assert (H : is_option_value (memory_type (newMemory (form signedIn))))
    by (now exists OptPreference).
  pose proof (drive_submissions_typed online evs tt signedIn H) as F.
  rewrite Forall_forall in F. specialize (F d Hd).
  rewrite Ht in F. exact (context_is_no_option F).
Qed.

(** C7 at its failing input: the user opens the form, types a content,
    empties the importance field and submits.  [parseInt] of the empty
    string is NaN, the empty field passes validation, and the memory
    handed to the backend and appended by [UserContext.ADD_MEMORY] has importance
    NaN. *)
Theorem cleared_importance_submits_NaN :
  let nan_memory :=
    {| content := lit "likes tea"; memory_type := lit "preference";
       importance_score := NaN |} in
  parseInt [] = NaN
  /\ submissions
       (snd (drive online add_with_cleared_importance tt signedIn))
     = [ (lit "u1", nan_memory) ]
  /\ In (EvUpdate (UserDispatch (UserContext.ADD_MEMORY nan_memory)))
        (snd (drive online add_with_cleared_importance tt signedIn)).
Proof.
  split; [reflexivity|]. split; [reflexivity|].
  do 5 right. left. reflexivity.
Qed.

(** ** The dominant emotion *)

Lemma get_unique {V} (o : list (jsstring * V)) (k : jsstring) (v : V) :
  NoDup (map fst o) -> In (k, v) o -> get o k = Some v.
Proof.
  induction o as [|[k' v'] r IH]; cbn; [tauto|].
  intros N [H|H].
  - inversion H; subst. now rewrite eqb_refl.
  - inversion N as [|? ? Hk Hr]; subst.
    destruct (JS.eqb k' k) eqn:E.
    + apply eqb_eq in E. subst. elim Hk.
      change k with (fst (k, v)). now apply in_map.
    + now apply IH.
Qed.

(** The reducer of [getDominantEmotion] keeps an entry of the list whose
    score no other visited entry exceeds. *)
Lemma reduce_keeps_maximum (o : Emotions) (r : list (jsstring * Q)) :
  forall x,
    (forall y, In y (x :: r) -> get o (fst y) = Some (snd y)) ->
    let m := fold_left
               (fun a b => if js_gt (get o (fst a)) (get o (fst b))
                           then a else b) r x in
    In m (x :: r) /\ forall y, In y (x :: r) -> (snd y <= snd m)%Q.
Proof.
  induction r as [|b r IH]; intros x Hget; cbn.
  - split; [now left|]. intros y [<-|[]]. apply Qle_refl.
  - rewrite (Hget x (or_introl eq_refl)).
    rewrite (Hget b (or_intror (or_introl eq_refl))). cbn.
    destruct (Qle_bool (snd x) (snd b)) eqn:E; cbn.
    + apply Qle_bool_iff in E.
      destruct (IH b) as [Hin Hmax].
      { intros y Hy. apply Hget. now right. }
      split; [now right|].
      intros y [<-|Hy]; [|now apply Hmax].
      eapply Qle_trans; [exact E|]. apply Hmax. now left.
    + assert (L : (snd b < snd x)%Q).
      { apply Qnot_le_lt. intros C. apply Qle_bool_iff in C. congruence. }
      destruct (IH x) as [Hin Hmax].
      { intros y [<-|Hy]; apply Hget; [now left|now right; right]. }
      split.
      * destruct Hin as [<-|Hin]; [now left|now right; right].
      * intros y [<-|[<-|Hy]].
        -- apply Hmax. now left.
        -- eapply Qle_trans; [apply Qlt_le_weak; exact L|].
           apply Hmax. now left.
        -- apply Hmax. now right.
Qed.

(** C10: [getDominantEmotion] returns null for null, undefined and the
    empty object; for an object with at least one entry it returns one of
    the object's entries, and no entry of the object has a greater
    score. *)
Theorem dominant_emotion_is_maximal :
  getDominantEmotion EmNull = None
  /\ getDominantEmotion EmUndefined = None
  /\ getDominantEmotion (EmObject []) = None
  /\ forall o : Emotions,
       o <> [] -> NoDup (map fst o) ->
       exists k v,
         getDominantEmotion (EmObject o) = Some (k, v)
         /\ In (k, v) o
         /\ forall k' v', In (k', v') o -> (v' <= v)%Q.
Proof.
  repeat (split; [reflexivity|]).
  intros o Hne Hnd. destruct o as [|x r]; [congruence|].
  cbn [getDominantEmotion map List.length Nat.eqb reduce].
  destruct (reduce_keeps_maximum (x :: r) r x) as [Hin Hmax].
  { intros [k v] Hy. now apply get_unique. }
  set (m := fold_left _ r x) in *.
  exists (fst m), (snd m). rewrite <- surjective_pairing.
  split; [reflexivity|]. split; [exact Hin|].
  intros k' v' H. exact (Hmax (k', v') H).
Qed.

(** An emotion breakdown with joy on top. *)
Lemma dominant_emotion_is_maximal_witness :
  let o := [ (lit "joy", 7 # 10); (lit "fear", 1 # 10);
             (lit "anger", 2 # 10) ]%Q in
  exists k v,
    getDominantEmotion (EmObject o) = Some (k, v)
    /\ In (k, v) o
    /\ forall k' v', In (k', v') o -> (v' <= v)%Q.
Proof.
  intros o.
  destruct dominant_emotion_is_maximal as [_ [_ [_ H]]].
  apply (H o).
  - discriminate.
  - cbn. repeat constructor; cbn; intuition discriminate.
Defined.

(** ** Sorting by a boolean test *)

Section SortBy.

Variable A : Type.
Variable before : A -> A -> bool.
Variable R : A -> A -> Prop.
Hypothesis before_R : forall a b, before a b = true -> R a b.
Hypothesis before_total : forall a b, before a b = false -> R b a.

Lemma insert_by_perm (x : A) (l : list A) :
  Permutation (Memory.insert_by before x l) (x :: l).
Proof.
  induction l as [|y r IH]; cbn; [reflexivity|].
  destruct (before x y); [reflexivity|].
  rewrite IH. apply perm_swap.
Qed.

Lemma sort_by_perm (l : list A) : Permutation (Memory.sort_by before l) l.
Proof.
  induction l as [|x r IH]; cbn; [reflexivity|].
  rewrite insert_by_perm. now constructor.
Qed.

Lemma insert_by_hd (x y : A) (l : list A) :
  R y x -> HdRel R y l -> HdRel R y (Memory.insert_by before x l).
Proof.
  intros Hyx Hl. destruct l as [|z r]; cbn; [now constructor|].
  destruct (before x z); constructor; [exact Hyx|].
  now inversion Hl.
Qed.

Lemma insert_by_sorted (x : A) (l : list A) :
  Sorted R l -> Sorted R (Memory.insert_by before x l).
Proof.
  induction l as [|y r IH]; intros Hl; cbn.
  - repeat constructor.
  - destruct (before x y) eqn:E.
    + constructor; [exact Hl|]. constructor. now apply before_R.
    + inversion Hl as [|? ? Hr Hhd]; subst.
      constructor; [now apply IH|].
      apply insert_by_hd; [now apply before_total|exact Hhd].
Qed.

Lemma sort_by_sorted (l : list A) : Sorted R (Memory.sort_by before l).
Proof.
  induction l as [|x r IH]; cbn; [constructor|].
  now apply insert_by_sorted.
Qed.

End SortBy.

Lemma in_firstn {A} (n : nat) (l : list A) (x : A) :
  In x (firstn n l) -> In x l.
Proof.
  revert l. induction n as [|n IH]; intros [|y r]; cbn; try tauto.
  intros [H|H]; [now left|right; now apply IH].
Qed.

Lemma firstn_strongly_sorted {A} (R : A -> A -> Prop) (n : nat) (l : list A) :
  StronglySorted R l -> StronglySorted R (firstn n l).
Proof.
  revert l. induction n as [|n IH]; intros l Hl; cbn; [constructor|].
  destruct l as [|x r]; [constructor|].
  inversion Hl as [|? ? Hr Hx]; subst.
  constructor; [now apply IH|].
  rewrite Forall_forall in *. intros y Hy. apply Hx.
  now apply in_firstn in Hy.
Qed.

(** ** Retrieval *)

Lemma Qltb_lt (a b : Q) : Memory.Qltb a b = true <-> (a < b)%Q.
Proof.
  unfold Memory.Qltb. rewrite negb_true_iff. split.
  - intros H. apply Qnot_le_lt. intros C. apply Qle_bool_iff in C. congruence.
  - intros H. destruct (Qle_bool b a) eqn:E; [|reflexivity].
    apply Qle_bool_iff in E. exfalso. exact (Qlt_not_le _ _ H E).
Qed.

Lemma ranks_beforeb_true (a b : Memory.ScoredMemory) :
  Memory.ranks_beforeb a b = true -> Memory.ranks_before a b.
Proof.
  unfold Memory.ranks_beforeb, Memory.ranks_before. intros H.
  apply orb_prop in H as [H|H].
  - left. now apply Qltb_lt.
  - apply andb_prop in H as [H1 H2]. right. split.
    + now apply Qeq_bool_iff.
    + now apply Z.leb_le.
Qed.

Lemma ranks_beforeb_false (a b : Memory.ScoredMemory) :
  Memory.ranks_beforeb a b = false -> Memory.ranks_before b a.
Proof.
  unfold Memory.ranks_beforeb, Memory.ranks_before. intros H.
  apply orb_false_elim in H as [H1 H2].
  assert (L : (Memory.relevance a <= Memory.relevance b)%Q).
  { apply Qnot_lt_le. intros C. apply Qltb_lt in C. congruence. }
  destruct (Qeq_bool (Memory.relevance a) (Memory.relevance b)) eqn:E.
  - right. apply Qeq_bool_iff in E. split; [now symmetry|].
    cbn in H2. apply Z.leb_gt in H2. lia.
  - left. apply Qle_lteq in L as [L|L]; [exact L|].
    apply Qeq_bool_iff in L. congruence.
Qed.

Lemma ranks_before_trans (a b c : Memory.ScoredMemory) :
  Memory.ranks_before a b -> Memory.ranks_before b c ->
  Memory.ranks_before a c.
Proof.
  unfold Memory.ranks_before.
  intros [H1|[H1 L1]] [H2|[H2 L2]].
  - left. now apply Qlt_trans with (Memory.relevance b).
  - left. now rewrite <- H2.
  - left. now rewrite H1.
  - right. split; [now rewrite H1|lia].
Qed.

Lemma retrieve_sorted (cfg : Memory.Config) (index : list Memory.MemoryEntry)
  (now : Z) (q : Memory.RetrievalQuery) :
  StronglySorted Memory.ranks_before (Memory.retrieve cfg index now q).
Proof.
  unfold Memory.retrieve. apply firstn_strongly_sorted.
  apply Sorted_StronglySorted.
  - intros a b c. apply ranks_before_trans.
  - apply sort_by_sorted.
    + exact ranks_beforeb_true.
    + exact ranks_beforeb_false.
Qed.

(** Every result is the re-scored form of an entry of the index that is
    in the query's scope. *)
Lemma retrieve_in_scope (cfg : Memory.Config)
  (index : list Memory.MemoryEntry) (now : Z) (q : Memory.RetrievalQuery)
  (r : Memory.ScoredMemory) :
  In r (Memory.retrieve cfg index now q) ->
  In (Memory.entry r) index
  /\ Memory.in_scope (Memory.q_user_id q) (Memory.type_filter q)
                     (Memory.entry r) = true.
Proof.
  unfold Memory.retrieve, Memory.vector_query. intros H.
  apply in_firstn in H.
  apply (Permutation_in _ (sort_by_perm _ _ _)) in H.
  apply in_map_iff in H as [c [<- Hc]]. cbn.
  apply in_firstn in Hc.
  apply (Permutation_in _ (sort_by_perm _ _ _)) in Hc.
  apply in_map_iff in Hc as [e [<- He]]. cbn.
  now apply filter_In in He.
Qed.

(** C1: every entry that [retrieve] returns belongs to the user of the
    query (and is an entry of the index), whatever the index holds. *)
Theorem retrieve_only_own_entries (cfg : Memory.Config)
  (index : list Memory.MemoryEntry) (now : Z) (q : Memory.RetrievalQuery) :
  Forall (fun r => Memory.user_id (Memory.entry r) = Memory.q_user_id q
                   /\ In (Memory.entry r) index)
         (Memory.retrieve cfg index now q).
Proof.
  apply Forall_forall. intros r Hr.
  destruct (retrieve_in_scope cfg index now q r Hr) as [Hin Hs].
  split; [|exact Hin].
  unfold Memory.in_scope in Hs. apply andb_prop in Hs as [Hu _].
  now apply eqb_eq.
Qed.

Lemma vector_query_similarity (cfg : Memory.Config)
  (index : list Memory.MemoryEntry) (qe : list Q) (uid : jsstring) (n : nat)
  (tf : option Memory.MemoryType) (c : Memory.MemoryEntry * Q) :
  In c (Memory.vector_query cfg index qe uid n tf) ->
  snd c = Memory.similarity cfg qe (Memory.embedding (fst c)).
Proof.
  unfold Memory.vector_query. intros H. apply in_firstn in H.
  apply (Permutation_in _ (sort_by_perm _ _ _)) in H.
  apply in_map_iff in H as [e [<- _]]. reflexivity.
Qed.

(** The list that [retrieve] sorts is the list of candidates, each with
    its combined relevance. *)
Lemma retrieve_scores (cfg : Memory.Config)
  (index : list Memory.MemoryEntry) (now : Z) (q : Memory.RetrievalQuery) :
  map (fun c => {| Memory.entry := fst c;
                   Memory.relevance :=
                     Memory.combined_relevance cfg (fst c) (snd c) now |})
      (Memory.vector_query cfg index (Memory.embed cfg (Memory.query_text q))
         (Memory.q_user_id q) (4 * Memory.k q) (Memory.type_filter q))
  = map (fun e => {| Memory.entry := e;
                     Memory.relevance := combined_score cfg now q e |})
        (candidates cfg index q).
Proof.
  unfold candidates. rewrite map_map. apply map_ext_in. intros c Hc.
  unfold combined_score.
  now rewrite <- (vector_query_similarity cfg index _ _ _ _ c Hc).
Qed.

Lemma strongly_sorted_app {A} (R : A -> A -> Prop) (l1 l2 : list A) :
  StronglySorted R (l1 ++ l2) ->
  forall a b, In a l1 -> In b l2 -> R a b.
Proof.
  induction l1 as [|x r IH]; cbn; intros H a b Ha Hb; [destruct Ha|].
  inversion H as [|? ? Hr Hx]; subst.
  destruct Ha as [<-|Ha]; [|now apply IH].
  rewrite Forall_forall in Hx. apply Hx. apply in_or_app. now right.
Qed.

(** C2: [retrieve] returns at most [k] results; every result carries the
    combined relevance of its entry, and the results are ordered by that
    combined relevance, descending, and on equal relevance by more recent
    last access; they are the best of the candidates: together with the
    candidates left out they make up the scored candidates, and every
    result outranks every candidate left out.  With [k = 0], or when no
    entry of the index is in the query's scope (in particular when the
    user has no memories), the result is the empty list. *)
Theorem retrieve_top_k (cfg : Memory.Config)
  (index : list Memory.MemoryEntry) (now : Z) (q : Memory.RetrievalQuery) :
  (List.length (Memory.retrieve cfg index now q) <= Memory.k q)%nat
  /\ StronglySorted Memory.ranks_before (Memory.retrieve cfg index now q)
  /\ (Memory.k q = 0%nat -> Memory.retrieve cfg index now q = [])
  /\ ((forall e, In e index ->
                 Memory.user_id e <> Memory.q_user_id q) ->
      Memory.retrieve cfg index now q = [])
  /\ (filter (Memory.in_scope (Memory.q_user_id q) (Memory.type_filter q))
             index = [] ->
      Memory.retrieve cfg index now q = [])
  /\ Forall (fun r => Memory.relevance r
                      = combined_score cfg now q (Memory.entry r))
            (Memory.retrieve cfg index now q)
  /\ StronglySorted (outranks cfg now q)
       (map Memory.entry (Memory.retrieve cfg index now q))
  /\ (exists left_out,
         Permutation
           (map Memory.entry (Memory.retrieve cfg index now q) ++ left_out)
           (candidates cfg index q)
         /\ forall r e,
              In r (map Memory.entry (Memory.retrieve cfg index now q)) ->
              In e left_out -> outranks cfg now q r e).
Proof.
  split; [apply firstn_le_length|]. split; [apply retrieve_sorted|].
  assert (E : filter (Memory.in_scope (Memory.q_user_id q)
                                      (Memory.type_filter q)) index = [] ->
              Memory.retrieve cfg index now q = []).
  { intros H. unfold Memory.retrieve, Memory.vector_query. rewrite H. cbn.
    rewrite firstn_nil. cbn. apply firstn_nil. }
  split; [|split; [|split; [exact E|]]].
  - intros H. unfold Memory.retrieve. now rewrite H.
  - intros H. apply E.
    destruct (filter _ index) as [|e r] eqn:F; [reflexivity|].
    assert (He : In e (filter (Memory.in_scope (Memory.q_user_id q)
                                               (Memory.type_filter q)) index))
      by (rewrite F; now left).
    apply filter_In in He as [Hin Hs].
    unfold Memory.in_scope in Hs. apply andb_prop in Hs as [Hu _].
    apply eqb_eq in Hu. now elim (H e Hin).
  - set (scored := map (fun e => {| Memory.entry := e;
                                    Memory.relevance :=
                                      combined_score cfg now q e |})
                       (candidates cfg index q)).
    set (full := Memory.sort_by Memory.ranks_beforeb scored).
    assert (R : Memory.retrieve cfg index now q = firstn (Memory.k q) full).
    { unfold Memory.retrieve. cbv zeta. now rewrite retrieve_scores. }
    assert (Hscored : forall r, In r full ->
               Memory.relevance r
               = combined_score cfg now q (Memory.entry r)).
    { intros r Hr. apply (Permutation_in _ (sort_by_perm _ _ _)) in Hr.
      apply in_map_iff in Hr as [e [<- _]]. reflexivity. }
    assert (Hfull : StronglySorted Memory.ranks_before full).
    { apply Sorted_StronglySorted.
      - intros a b c. apply ranks_before_trans.
      - apply sort_by_sorted;
          [exact ranks_beforeb_true|exact ranks_beforeb_false]. }
    assert (Hrank : forall a b, In a full -> In b full ->
               Memory.ranks_before a b ->
               outranks cfg now q (Memory.entry a) (Memory.entry b)).
    { intros a b Ha Hb H. unfold outranks.
      rewrite <- (Hscored a Ha), <- (Hscored b Hb). exact H. }
    split; [|split].
    + rewrite R. apply Forall_forall. intros r Hr.
      apply Hscored. now apply in_firstn in Hr.
    + rewrite R.
      assert (S : StronglySorted Memory.ranks_before
                    (firstn (Memory.k q) full))
        by now apply firstn_strongly_sorted.
      assert (I : forall r, In r (firstn (Memory.k q) full) -> In r full)
        by (intros r; apply in_firstn).
      revert S I. generalize (firstn (Memory.k q) full).
      induction l as [|x r IH]; cbn; intros S I; [constructor|].
      inversion S as [|? ? Sr Sx]; subst.
      constructor; [apply IH; [exact Sr|intros y Hy; apply I; now right]|].
      apply Forall_forall. intros e He.
      apply in_map_iff in He as [y [<- Hy]].
      rewrite Forall_forall in Sx.
      apply Hrank; [apply I; now left|apply I; now right|now apply Sx].
    + exists (map Memory.entry (skipn (Memory.k q) full)). split.
      * rewrite R, <- map_app, firstn_skipn.
        unfold full. rewrite (sort_by_perm _ _ scored).
        unfold scored. rewrite map_map. cbn. now rewrite map_id.
      * intros r e Hr He. rewrite R in Hr.
        apply in_map_iff in Hr as [a [<- Ha]].
        apply in_map_iff in He as [b [<- Hb]].
        apply Hrank.
        -- now apply in_firstn in Ha.
        -- rewrite <- (firstn_skipn (Memory.k q) full).
           apply in_or_app. now right.
        -- apply (strongly_sorted_app Memory.ranks_before
                    (firstn (Memory.k q) full) (skipn (Memory.k q) full));
             [now rewrite firstn_skipn|exact Ha|exact Hb].
Qed.

(** Pat has no memories; Alex asks for zero results. *)
Lemma retrieve_top_k_witness :
  Memory.retrieve Memory.sampleConfig Memory.sampleIndex 40 Memory.patQuery
    = []
  /\ Memory.retrieve Memory.sampleConfig Memory.sampleIndex 40
       Memory.zeroQuery = []
  /\ map (fun r => Memory.entry_id (Memory.entry r))
       (Memory.retrieve Memory.sampleConfig Memory.sampleIndex 40
          Memory.alexQuery) = [1; 2]%Z.
Proof.
  split; [|split].
  - destruct (retrieve_top_k Memory.sampleConfig Memory.sampleIndex 40
                Memory.patQuery) as [_ [_ [_ [H _]]]].
    apply H. intros e [<-|[<-|[<-|[]]]]; discriminate.
  - destruct (retrieve_top_k Memory.sampleConfig Memory.sampleIndex 40
                Memory.zeroQuery) as [_ [_ [H _]]].
    apply H. reflexivity.
  - reflexivity.
Defined.

(** ** Decay *)

Lemma decay_step_monotone (cfg : Memory.Config) (e : Memory.MemoryEntry)
  (t1 t2 : Z) :
  (t1 <= t2)%Z ->
  (Memory.decay_step cfg e t1 <= Memory.decay_step cfg e t2)%Z.
Proof.
  intros H. unfold Memory.decay_step.
  apply Z.div_le_mono; [reflexivity|].
  apply Z.mul_le_mono_nonneg_l; [apply N2Z.is_nonneg|lia].
Qed.

(** C3: for a fixed entry the decayed importance never grows with time,
    is never negative, and stays at 1 or more for an entry whose access
    count has reached the protected threshold. *)
Theorem decayed_importance_monotone (cfg : Memory.Config)
  (e : Memory.MemoryEntry) :
  (forall t1 t2, (t1 <= t2)%Z ->
     (Memory.decayed_importance cfg e t2
      <= Memory.decayed_importance cfg e t1)%Z)
  /\ (forall t, (0 <= Memory.decayed_importance cfg e t)%Z)
  /\ ((Memory.protected_threshold cfg <= Memory.access_count e)%Z ->
      forall t, (1 <= Memory.decayed_importance cfg e t)%Z).
Proof.
  unfold Memory.decayed_importance, Memory.decay_floor,
    Memory.protected_minimum.
  split; [|split].
  - intros t1 t2 H. pose proof (decay_step_monotone cfg e t1 t2 H). lia.
  - intros t.
    destruct (Memory.protected_threshold cfg <=? Memory.access_count e)%Z;
      lia.
  - intros H t. apply Z.leb_le in H. rewrite H. lia.
Qed.

(** The hiking entry (importance 6, accessed 5 times, last at time 10):
    6 at time 10, 3 after 90 idle units, and 1, not 0, after 1000. *)
Lemma decayed_importance_monotone_witness :
  (Memory.protected_threshold Memory.sampleConfig
   <= Memory.access_count Memory.hiking)%Z
  /\ (Memory.decayed_importance Memory.sampleConfig Memory.hiking 1010
      <= Memory.decayed_importance Memory.sampleConfig Memory.hiking 100)%Z
  /\ (1 <= Memory.decayed_importance Memory.sampleConfig Memory.hiking 1010)%Z
  /\ Memory.decayed_importance Memory.sampleConfig Memory.hiking 10 = 6%Z
  /\ Memory.decayed_importance Memory.sampleConfig Memory.hiking 100 = 3%Z
  /\ Memory.decayed_importance Memory.sampleConfig Memory.alexName 1000
     = 0%Z.
Proof.
  destruct (decayed_importance_monotone Memory.sampleConfig Memory.hiking)
    as [Hm [_ Hp]].
  assert (P : (Memory.protected_threshold Memory.sampleConfig
               <= Memory.access_count Memory.hiking)%Z) by (cbn; lia).
  split; [exact P|].
  split; [apply Hm; lia|].
  split; [exact (Hp P 1010%Z)|].
  repeat split; reflexivity.
Defined.

(** * Further properties of the front end *)

(** ** The chat reducer on sequences of actions *)

Lemma filter_all {A} (f : A -> bool) (l : list A) :
  (forall x, In x l -> f x = true) -> filter f l = l.
Proof.
  induction l as [|x r IH]; cbn; [reflexivity|].
  intros H. rewrite (H x (or_introl eq_refl)). f_equal.
  apply IH. intros y Hy. apply H. now right.
Qed.

Lemma filter_twice {A} (f : A -> bool) (l : list A) :
  filter f (filter f l) = filter f l.
Proof.
  apply filter_all. intros x Hx. now apply filter_In in Hx.
Qed.

(** Adding a session whose id is not yet listed and deleting it again
    gives back the session list. *)
Theorem add_then_delete_session (state : ChatState) (s : Session) :
  (forall x, In x (sessions state) -> session_id x <> session_id s) ->
  sessions (chatReducer (chatReducer state (ADD_SESSION s))
                        (DELETE_SESSION (session_id s)))
  = sessions state.
Proof.
  intros Hfresh. cbn. rewrite eqb_refl. cbn.
  apply filter_all. intros x Hx.
  apply negb_true_iff, eqb_neq. now apply Hfresh.
Qed.

Lemma add_then_delete_session_witness :
  let state := chatReducer initialState (ADD_SESSION (sampleSession "s1")) in
  sessions (chatReducer (chatReducer state (ADD_SESSION (sampleSession "s2")))
                        (DELETE_SESSION (lit "s2")))
  = [sampleSession "s1"].
Proof.
  intros state.
  apply (add_then_delete_session state (sampleSession "s2")).
  intros x [<-|[]]. discriminate.
Defined.

(** Deleting the same session a second time changes nothing. *)
Theorem delete_session_idempotent (state : ChatState) (p : jsstring) :
  chatReducer (chatReducer state (DELETE_SESSION p)) (DELETE_SESSION p)
  = chatReducer state (DELETE_SESSION p).
Proof.
  cbn. rewrite filter_twice.
  assert (E : is_current
                (if is_current (currentSessionId state) p then None
                 else currentSessionId state) p = false).
  { destruct (is_current (currentSessionId state) p) eqn:C;
      [reflexivity|exact C]. }
  rewrite E. reflexivity.
Qed.

(** Along any sequence of actions none of which is [SET_MESSAGES],
    [CLEAR_MESSAGES] or [DELETE_SESSION], no message is lost or reordered:
    the list grows by the [ADD_MESSAGE] payloads, in order. *)
Theorem messages_only_grow (acts : list ChatAction) :
  forall state,
    forallb (fun a => negb (replaces_messages a)) acts = true ->
    messages (fold_left chatReducer acts state)
    = messages state ++ flat_map appended acts.
Proof.
  induction acts as [|a r IH]; intros state H; cbn.
  - now rewrite app_nil_r.
  - cbn in H. apply andb_prop in H as [Ha Hr].
    rewrite (IH _ Hr).
    destruct a; try discriminate Ha; cbn; try reflexivity.
    now rewrite <- app_assoc.
Qed.

Lemma messages_only_grow_witness :
  messages (fold_left chatReducer
              [ ADD_MESSAGE (sampleMessage "a"); SET_TYPING true;
                SET_ERROR None; ADD_MESSAGE (sampleMessage "b");
                SET_TYPING false ] initialState)
  = [sampleMessage "a"; sampleMessage "b"].
Proof.
  apply (messages_only_grow
           [ ADD_MESSAGE (sampleMessage "a"); SET_TYPING true;
             SET_ERROR None; ADD_MESSAGE (sampleMessage "b");
             SET_TYPING false ] initialState).
  reflexivity.
Defined.

(** ** More on [sendMessage] *)

(** A blank message is dropped without any effect: no dispatch, no
    request, no toast. *)
Theorem blank_message_ignored {W} (h : Handler W) (w : W)
  (state : ChatState) (live : AppState) (msg uid : jsstring) :
  forallb is_whitespace msg = true ->
  run h (sendMessage state msg uid) w live
  = {| result := Fulfilled; world := w; app := live; trace := [] |}.
Proof.
  intros H. unfold sendMessage. now rewrite (trim_whitespace msg H).
Qed.

Lemma blank_message_ignored_witness :
  run online (sendMessage initialState (lit "  ") (lit "u1")) tt initialApp
  = {| result := Fulfilled; world := tt; app := initialApp; trace := [] |}.
Proof.
  apply (blank_message_ignored online tt initialState initialApp
           (lit "  ") (lit "u1")).
  reflexivity.
Defined.

(** When the backend answers, the list ends with the user's message
    followed by the bot's, the current session is the one the backend
    named, and the error field is left as it was: an earlier error is not
    cleared by a later success. *)
Theorem sendMessage_success {W} (h : Handler W) (w : W) (live : AppState)
  (msg uid : jsstring) (r : ChatResponse) :
  truthy (trim msg) = true ->
  backend_answer h w (chat live) msg uid = Resolved r ->
  let o := run h (sendMessage (chat live) msg uid) w live in
  (exists bid bts,
      messages (chat (app o))
      = messages (chat live)
        ++ [sent_user_message h w msg; bot_message bid bts msg r])
  /\ currentSessionId (chat (app o)) = Some (resp_session_id r)
  /\ error (chat (app o)) = error (chat live)
  /\ isTyping (chat (app o)) = false.
Proof.
  intros Hmsg. unfold sendMessage, sent_user_message, backend_answer.
  rewrite Hmsg. cbn. fold (sent_request (chat live) msg uid).
  destruct (h _ Uuidv4 w) as [mid w1]. cbn.
  destruct (h _ NowISOString w1) as [ts w2]. cbn.
  destruct (h _ (SendMessageApi (sent_request (chat live) msg uid)) w2)
    as [[response|e] w3]; cbn; [|discriminate].
  intros E. injection E as ->.
  destruct (h _ Uuidv4 w3) as [bid w4]. cbn.
  destruct (h _ NowISOString w4) as [bts w5]. cbn.
  destruct (is_current (currentSessionId (chat live)) (resp_session_id r))
    eqn:C; cbn.
  - split; [exists bid, bts; now rewrite <- app_assoc|].
    split; [|split; reflexivity].
    destruct (currentSessionId (chat live)) as [c|]; [|discriminate C].
    cbn in C. apply eqb_eq in C. now subst.
  - destruct (h _ (GetSessionsApi uid) w5) as [[l|e] w6]; cbn;
      (split; [exists bid, bts; now rewrite <- app_assoc|]);
      repeat split.
Qed.

Lemma sendMessage_success_witness :
  let o := run online (sendMessage (chat initialApp) (lit "hi") (lit "u1"))
               tt initialApp in
  currentSessionId (chat (app o)) = Some (lit "s1")
  /\ List.length (messages (chat (app o))) = 2%nat
  /\ error (chat (app o)) = None.
Proof.
  intros o.
  destruct (sendMessage_success online tt initialApp (lit "hi") (lit "u1")
              {| resp_response := lit "Hello!"; resp_session_id := lit "s1";
                 resp_bot := {| tone_used := None; emotion_detected := None;
                                memory_recalled := []; tokens_used := 0;
                                response_time := 0 |} |}
              eq_refl eq_refl) as [[bid [bts Hm]] [Hc [He _]]].
  split; [exact Hc|]. split; [|exact He].
  unfold o. rewrite Hm. reflexivity.
Defined.

Lemma slice_last_app {A} (p l : list A) :
  slice_last (List.length l) (p ++ l) = l.
Proof.
  unfold slice_last. rewrite length_app.
  replace (List.length p + List.length l - List.length l)%nat
    with (List.length p + 0)%nat by lia.
  rewrite skipn_app, Nat.add_0_r, skipn_all.
  replace (List.length p - List.length p)%nat with 0%nat by lia.
  reflexivity.
Qed.

(** The context sent with a request is made of the texts of the last
    three messages only, joined by single spaces; older messages never
    reach the backend this way. *)
Theorem recent_context_last_three (state : ChatState)
  (older : list Message) (a b c : Message) :
  messages state = older ++ [a; b; c] ->
  recent_context state
  = message a ++ lit " " ++ message b ++ lit " " ++ message c.
Proof.
  intros H. unfold recent_context. rewrite H.
  change 3%nat with (List.length [a; b; c]).
  now rewrite slice_last_app.
Qed.

Lemma recent_context_last_three_witness :
  recent_context
    (fold_left chatReducer
       (map ADD_MESSAGE [ sampleMessage "w"; sampleMessage "x";
                          sampleMessage "y"; sampleMessage "z" ])
       initialState)
  = lit "x y z".
Proof.
  apply (recent_context_last_three _ [sampleMessage "w"]
           (sampleMessage "x") (sampleMessage "y") (sampleMessage "z")).
  reflexivity.
Defined.

(** ** Sessions *)

(** [loadSessions] replaces the session list by the backend's answer and
    touches nothing else: every other field of the chat state, the user
    state and the form are as before, and the only dispatch is
    [SET_SESSIONS].  When the request is rejected the whole state is as
    before and the run consists of the request, the console error and the
    error toast.  The promise is fulfilled either way. *)
Theorem loadSessions_only_sessions {W} (h : Handler W) (w : W)
  (live : AppState) (uid : jsstring) :
  let o := run h (loadSessions uid) w live in
  result o = Fulfilled
  /\ world o = snd (h _ (GetSessionsApi uid) w)
  /\ match fst (h _ (GetSessionsApi uid) w) with
     | Resolved listed =>
         chat (app o)
         = {| messages := messages (chat live);
              sessions := listed;
              currentSessionId := currentSessionId (chat live);
              isLoading := isLoading (chat live);
              isTyping := isTyping (chat live);
              error := error (chat live);
              analytics := analytics (chat live) |}
         /\ usr (app o) = usr live
         /\ form (app o) = form live
         /\ trace o = [ EvCall (GetSessionsApi uid);
                        EvUpdate (ChatDispatch (SET_SESSIONS listed)) ]
     | Rejected e =>
         app o = live
         /\ trace o
            = [ EvCall (GetSessionsApi uid);
                EvUi (ConsoleError (lit "Error loading sessions:") e);
                EvUi (ToastError (lit "Failed to load chat sessions")) ]
     end.
Proof.
  unfold loadSessions. cbn.
  destruct (h _ (GetSessionsApi uid) w) as [[l|e] w1]; cbn.
  - repeat split.
  - repeat split.
Qed.

(** Whatever the backend answers, [deleteSession] adds no session and
    leaves the user state and the form alone; once the backend has
    accepted, no session with the deleted id is listed and that id is not
    current; when it rejects, nothing changes. *)
Theorem deleteSession_outcomes {W} (h : Handler W) (w : W)
  (live : AppState) (sid : jsstring) :
  let o := run h (deleteSession sid) w live in
  incl (sessions (chat (app o))) (sessions (chat live))
  /\ usr (app o) = usr live
  /\ form (app o) = form live
  /\ (forall x, fst (h _ (DeleteSessionApi sid) w) = Resolved x ->
        (forall s, In s (sessions (chat (app o))) -> session_id s <> sid)
        /\ currentSessionId (chat (app o)) <> Some sid)
  /\ (forall e, fst (h _ (DeleteSessionApi sid) w) = Rejected e ->
        app o = live).
Proof.
  unfold deleteSession. cbn.
  destruct (h _ (DeleteSessionApi sid) w) as [[x|e] w1]; cbn.
  - split; [intros s Hs; now apply filter_In in Hs|].
    split; [reflexivity|]. split; [reflexivity|].
    split; [|discriminate].
    intros _ _. split.
    + intros s Hs. apply filter_In in Hs as [_ Hs].
      now apply negb_true_iff, eqb_neq in Hs.
    + destruct (is_current (currentSessionId (chat live)) sid) eqn:C;
        [discriminate|].
      intros E. rewrite E in C. cbn in C. now rewrite eqb_refl in C.
  - split; [apply incl_refl|]. split; [reflexivity|].
    split; [reflexivity|]. split; [discriminate|].
    intros _ _. now destruct live.
Qed.

Lemma deleteSession_outcomes_witness :
  let live :=
    apply_update (ChatDispatch (SET_CURRENT_SESSION (Some (lit "s1"))))
      (apply_update (ChatDispatch (ADD_SESSION (sampleSession "s1")))
                    signedIn) in
  currentSessionId
    (chat (app (run online (deleteSession (lit "s1")) tt live)))
  <> Some (lit "s1")
  /\ app (run offline (deleteSession (lit "s1")) tt live) = live.
Proof.
  intros live. split.
  - destruct (deleteSession_outcomes online tt live (lit "s1"))
      as [_ [_ [_ [H _]]]].
    exact (proj2 (H tt eq_refl)).
  - destruct (deleteSession_outcomes offline tt live (lit "s1"))
      as [_ [_ [_ [_ H]]]].
    exact (H network_error eq_refl).
Defined.

(** ** Memories *)


(** After the backend has accepted a new memory, the list shown is the
    backend's fresh listing when the refresh succeeds, and the old list
    with the form's object appended when the refresh fails; chat state
    and form are not touched by [addMemory]. *)
Theorem addMemory_then_refresh {W} (h : Handler W) (w w1 : W)
  (state : UserContext.State) (live : AppState) (uid : jsstring)
  (data : NewMemory) :
  truthy_userId state = Some uid ->
  h _ (AddUserMemoryApi uid data) w = (Resolved tt, w1) ->
  let o := run h (addMemory state data) w live in
  match fst (h _ (GetUserMemoriesApi uid None) w1) with
  | Resolved listed => UserContext.memories (usr (app o)) = listed
  | Rejected _ =>
      UserContext.memories (usr (app o))
      = UserContext.memories (usr live) ++ [Added data]
  end
  /\ chat (app o) = chat live
  /\ form (app o) = form live.
Proof.
  intros Hu Ha. unfold addMemory, loadMemories. rewrite Hu. cbn.
  rewrite Ha. cbn.
  destruct (h _ (GetUserMemoriesApi uid None) w1) as [[l|e] w2]; cbn;
    repeat split.
Qed.

Lemma addMemory_then_refresh_witness :
  UserContext.memories
    (usr (app (run online
                   (addMemory (usr signedIn)
                      (onContentChange defaultNewMemory (lit "likes tea")))
                   tt signedIn)))
  = [].
Proof.
  exact (proj1 (addMemory_then_refresh online tt tt (usr signedIn) signedIn
                  (lit "u1")
                  (onContentChange defaultNewMemory (lit "likes tea"))
                  eq_refl eq_refl)).
Defined.

(** When the backend rejects the new memory, [handleAddMemory] still
    resets and closes the form: the typed memory is neither stored nor
    kept in the form; the memories are unchanged and the user sees an
    error toast. *)
Theorem rejected_memory_clears_form {W} (h : Handler W) (w w1 : W)
  (s live : AppState) (uid : jsstring) (e : ApiError) :
  truthy (trim (content (newMemory (form s)))) = true ->
  truthy_userId (usr s) = Some uid ->
  h _ (AddUserMemoryApi uid (newMemory (form s))) w = (Rejected e, w1) ->
  let o := run h (handleAddMemory s) w live in
  form (app o) = {| newMemory := defaultNewMemory; showAddMemory := false |}
  /\ usr (app o) = usr live
  /\ chat (app o) = chat live
  /\ submissions (trace o) = [(uid, newMemory (form s))]
  /\ In (EvUi (ToastError (lit "Failed to add memory"))) (trace o).
Proof.
  intros Ht Hu Ha. unfold handleAddMemory, addMemory, await.
  rewrite Ht, Hu. cbn. rewrite Ha. cbn.
  repeat split. do 3 right. now left.
Qed.

Lemma rejected_memory_clears_form_witness :
  let s := apply_update
             (SetNewMemory (onContentChange defaultNewMemory
                              (lit "likes tea")))
             (apply_update (SetShowAddMemory true) signedIn) in
  form (app (run offline (handleAddMemory s) tt s)) = initialForm
  /\ UserContext.memories (usr (app (run offline (handleAddMemory s) tt s)))
     = [].
Proof.
  intros s.
  destruct (rejected_memory_clears_form offline tt tt s s (lit "u1")
              network_error eq_refl eq_refl eq_refl) as [Hf [Hu _]].
  split; [exact Hf|]. now rewrite Hu.
Defined.

(** Without a user id the same submission is dropped silently: no
    request, no toast, and the form is reset and closed all the same. *)
Theorem memory_without_user_dropped {W} (h : Handler W) (w : W)
  (s live : AppState) :
  truthy (trim (content (newMemory (form s)))) = true ->
  truthy_userId (usr s) = None ->
  run h (handleAddMemory s) w live
  = {| result := Fulfilled; world := w;
       app := apply_update (SetShowAddMemory false)
                (apply_update (SetNewMemory defaultNewMemory) live);
       trace := [ EvUi PreventDefault;
                  EvUpdate (SetNewMemory defaultNewMemory);
                  EvUpdate (SetShowAddMemory false) ] |}.
Proof.
  intros Ht Hu. unfold handleAddMemory, addMemory, await.
  rewrite Ht, Hu. reflexivity.
Qed.

Lemma memory_without_user_dropped_witness :
  let s := apply_update
             (SetNewMemory (onContentChange defaultNewMemory
                              (lit "likes tea")))
             (apply_update (SetShowAddMemory true) initialApp) in
  submissions (trace (run online (handleAddMemory s) tt s)) = []
  /\ form (app (run online (handleAddMemory s) tt s)) = initialForm.
Proof.
  intros s.
  rewrite (memory_without_user_dropped online tt s s eq_refl eq_refl).
  split; reflexivity.
Defined.

(** A first memory typed into the form of a signed-in user. *)
Lemma nonblank_memory_submitted_witness :
  let s := apply_update
             (SetNewMemory (onContentChange defaultNewMemory
                              (lit "likes tea")))
             (apply_update (SetShowAddMemory true) signedIn) in
  exists rest,
    trace (run online (handleAddMemory s) tt s)
    = EvUi PreventDefault
      :: EvCall (AddUserMemoryApi (lit "u1") (newMemory (form s))) :: rest.
Proof.
  intros s.
  apply (nonblank_memory_submitted online tt s s (lit "u1"));
    reflexivity.
Defined.

(** An importance of 15 is typed and the form submitted, then 7. *)
Lemma submitted_importance_range_witness :
  let evs := [ ClickAddMemory; TypeContent (lit "likes tea");
               TypeImportance (lit "15"); ClickSubmit;
               TypeImportance (lit "7"); ClickSubmit ] in
  let d := (lit "u1",
            {| content := lit "likes tea"; memory_type := lit "preference";
               importance_score := Num 7 |}) in
  submissions (snd (drive online evs tt signedIn)) = [d]
  /\ (importance_score (snd d) = NaN
      \/ exists z, importance_score (snd d) = Num z /\ (1 <= z <= 10)%Z).
Proof.
  intros evs d. split; [reflexivity|].
  apply (submitted_importance_range online evs tt signedIn d).
  now left.
Defined.

(** ** Ties between emotions *)

Lemma reduce_keeps_last_maximum (o : Emotions) (r : list (jsstring * Q)) :
  forall x,
    (forall y, In y (x :: r) -> get o (fst y) = Some (snd y)) ->
    let m := fold_left
               (fun a b => if js_gt (get o (fst a)) (get o (fst b))
                           then a else b) r x in
    exists pre post,
      x :: r = pre ++ m :: post
      /\ (forall y, In y pre -> (snd y <= snd m)%Q)
      /\ (forall y, In y post -> (snd y < snd m)%Q).
Proof.
  induction r as [|b r IH]; intros x Hget; cbn.
  - exists [], []. repeat split; intros y [].
  - rewrite (Hget x (or_introl eq_refl)).
    rewrite (Hget b (or_intror (or_introl eq_refl))). cbn.
    destruct (Qle_bool (snd x) (snd b)) eqn:E; cbn.
    + apply Qle_bool_iff in E.
      destruct (IH b) as [pre [post [Hsplit [Hpre Hpost]]]].
      { intros y Hy. apply Hget. now right. }
      set (m := fold_left _ r b) in *.
      exists (x :: pre), post. split; [cbn; now rewrite <- Hsplit|].
      split; [|exact Hpost].
      intros y [<-|Hy]; [|now apply Hpre].
      eapply Qle_trans; [exact E|].
      destruct pre as [|p0 pre'].
      * cbn in Hsplit. injection Hsplit as Hb _. rewrite <- Hb.
        apply Qle_refl.
      * cbn in Hsplit. injection Hsplit as Hb _. apply Hpre.
        left. now symmetry.
    + assert (L : (snd b < snd x)%Q).
      { apply Qnot_le_lt. intros C. apply Qle_bool_iff in C. congruence. }
      destruct (IH x) as [pre [post [Hsplit [Hpre Hpost]]]].
      { intros y [<-|Hy]; apply Hget; [now left|now right; right]. }
      set (m := fold_left _ r x) in *.
      destruct pre as [|p0 pre'].
      * cbn in Hsplit. injection Hsplit as Hx Hr.
        exists [], (b :: post). split; [cbn; now rewrite <- Hx, Hr|].
        split; [intros y []|].
        intros y [<-|Hy]; [now rewrite <- Hx|now apply Hpost].
      * cbn in Hsplit. injection Hsplit as Hx Hr.
        exists (x :: b :: pre'), post.
        split; [cbn; now rewrite Hr|].
        split; [|exact Hpost].
        assert (Hxm : (snd x <= snd m)%Q)
          by (apply Hpre; left; now symmetry).
        intros y [<-|[<-|Hy]]; [exact Hxm| |apply Hpre; now right].
        eapply Qle_trans; [apply Qlt_le_weak; exact L|exact Hxm].
Qed.

(** Among several entries with the highest score, [getDominantEmotion]
    returns the last one in the object's order: every later entry has a
    strictly smaller score. *)
Theorem dominant_emotion_last_maximum (o : Emotions) (k : jsstring) (v : Q) :
  NoDup (map fst o) ->
  getDominantEmotion (EmObject o) = Some (k, v) ->
  exists pre post,
    o = pre ++ (k, v) :: post
    /\ (forall y, In y pre -> (snd y <= v)%Q)
    /\ (forall y, In y post -> (snd y < v)%Q).
Proof.
  intros Hnd H. destruct o as [|x r]; [discriminate H|].
  destruct (reduce_keeps_last_maximum (x :: r) r x)
    as [pre [post [Hsplit [Hpre Hpost]]]].
  { intros [k' v'] Hy. now apply get_unique. }
  set (m := fold_left _ r x) in *.
  change (Some m = Some (k, v)) in H. injection H as H.
  rewrite H in Hsplit, Hpre, Hpost.
  exists pre, post. repeat split; assumption.
Qed.

(** Joy and surprise tie at 0.4; the later one is reported. *)
Lemma dominant_emotion_last_maximum_witness :
  let o := [ (lit "joy", 4 # 10); (lit "fear", 1 # 10);
             (lit "surprise", 4 # 10); (lit "anger", 2 # 10) ]%Q in
  getDominantEmotion (EmObject o) = Some (lit "surprise", 4 # 10)
  /\ exists pre post,
       o = pre ++ (lit "surprise", 4 # 10) :: post
       /\ (forall y, In y pre -> (snd y <= 4 # 10)%Q)
       /\ (forall y, In y post -> (snd y < 4 # 10)%Q).
Proof.
  intros o. split; [reflexivity|].
  apply (dominant_emotion_last_maximum o (lit "surprise") (4 # 10)).
  - cbn. repeat constructor; cbn; intuition discriminate.
  - reflexivity.
Defined.

(** ** A loaded history *)

Lemma formatted_ids (history : list HistoryRow) (x : jsstring) :
  In x (map fm_id (formattedMessages history)) ->
  exists row, In row history
              /\ (x = hist_id row ++ lit "-user"
                  \/ x = hist_id row ++ lit "-bot").
Proof.
  induction history as [|r t IH]; cbn; [tauto|].
  intros [H|[H|H]].
  - exists r. split; [now left|left; now symmetry].
  - exists r. split; [now left|right; now symmetry].
  - destruct (IH H) as [row [Hin Hx]]. exists row. split; [now right|exact Hx].
Qed.

Lemma user_id_is_no_bot_id (a b : jsstring) :
  a ++ lit "-user" <> b ++ lit "-bot".
Proof.
  intros H. apply (f_equal (@rev _)) in H.
  rewrite !rev_app_distr in H. cbn in H. discriminate H.
Qed.

(** A history of [n] rows becomes [2 * n] messages, and when the rows
    have pairwise different ids so have the messages. *)
Theorem formatted_history_keys (history : list HistoryRow) :
  List.length (formattedMessages history) = (2 * List.length history)%nat
  /\ (NoDup (map hist_id history) ->
      NoDup (map fm_id (formattedMessages history))).
Proof.
  split.
  - induction history as [|r t IH]; cbn; [reflexivity|].
    unfold formattedMessages in IH. rewrite IH. lia.
  - induction history as [|r t IH]; cbn; intros N; [constructor|].
    inversion N as [|? ? Hr Ht]; subst.
    assert (Fresh : forall x, In x (map fm_id (formattedMessages t)) ->
                    x <> hist_id r ++ lit "-user"
                    /\ x <> hist_id r ++ lit "-bot").
    { intros x Hx. destruct (formatted_ids t x Hx) as [row [Hin Hrow]].
      assert (Hne : hist_id row <> hist_id r).
      { intros E. apply Hr. rewrite <- E. now apply in_map. }
      destruct Hrow as [-> | ->]; split; intros E.
      - now apply app_inv_tail in E.
      - now apply user_id_is_no_bot_id in E.
      - symmetry in E. now apply user_id_is_no_bot_id in E.
      - now apply app_inv_tail in E. }
    constructor; [|constructor; [|now apply IH]].
    + intros [H|H].
      * symmetry in H. now apply user_id_is_no_bot_id in H.
      * now apply (proj1 (Fresh _ H)).
    + intros H. now apply (proj2 (Fresh _ H)).
Qed.

Lemma formatted_history_keys_witness :
  NoDup (map fm_id
           (formattedMessages [sampleRow "1" "hi"; sampleRow "2" "bye"]))
  /\ map fm_id (formattedMessages [sampleRow "1" "hi"; sampleRow "2" "bye"])
     = [lit "1-user"; lit "1-bot"; lit "2-user"; lit "2-bot"].
Proof.
  split; [|reflexivity].
  apply (proj2 (formatted_history_keys
                  [sampleRow "1" "hi"; sampleRow "2" "bye"])).
  cbn. repeat constructor; cbn; intuition discriminate.
Defined.

(** ** The patterns of the registration form *)

Lemma nullable_matches (r : Regex.re) :
  Regex.nullable r = true <-> Regex.Matches r [].
Proof.
  split.
  - induction r; cbn; intros H; try discriminate.
    + constructor.
    + apply andb_prop in H as [H1 H2].
      change (@nil code_unit) with (@nil code_unit ++ []).
      constructor; auto.
    + apply orb_prop in H as [H|H];
        [apply Regex.MAltL|apply Regex.MAltR]; auto.
    + constructor.
  - intros H. remember [] as s eqn:E.
    induction H; cbn; try reflexivity; try discriminate.
    + apply app_eq_nil in E as [-> ->]. now rewrite IHMatches1, IHMatches2.
    + now rewrite IHMatches.
    + rewrite IHMatches; [apply orb_true_r|exact E].
Qed.

Lemma deriv_sound (c : code_unit) (r : Regex.re) :
  forall s, Regex.Matches (Regex.deriv c r) s -> Regex.Matches r (c :: s).
Proof.
  induction r; cbn; intros s H.
  - inversion H.
  - inversion H.
  - destruct (p c) eqn:P; inversion H; subst. now constructor.
  - inversion H as [| | | ? ? ? H1 | ? ? ? H1 | |]; subst.
    + inversion H1; subst.
      change (c :: s0 ++ t) with ((c :: s0) ++ t).
      constructor; auto.
    + destruct (Regex.nullable r1) eqn:N; [|inversion H1].
      change (c :: s) with ([] ++ c :: s).
      constructor; [now apply nullable_matches|auto].
  - inversion H; subst;
      [apply Regex.MAltL|apply Regex.MAltR]; auto.
  - inversion H; subst.
    change (c :: s0 ++ t) with ((c :: s0) ++ t).
    constructor; auto.
Qed.

Lemma deriv_complete (c : code_unit) (r : Regex.re) (cs : jsstring) :
  Regex.Matches r cs ->
  forall s, cs = c :: s -> Regex.Matches (Regex.deriv c r) s.
Proof.
  induction 1 as [ | p c' P | a b s1 t Ha IHa Hb IHb | a b s1 Ha IHa
                 | a b s1 Hb IHb | a | a s1 t Ha IHa Hs IHs ];
    intros s E; cbn.
  - discriminate.
  - injection E as -> <-. rewrite P. constructor.
  - destruct s1 as [|c1 s1'].
    + cbn in E. apply Regex.MAltR.
      rewrite (proj2 (nullable_matches a) Ha). now apply IHb.
    + cbn in E. injection E as -> <-. apply Regex.MAltL.
      constructor; [now apply IHa|exact Hb].
  - apply Regex.MAltL. now apply IHa.
  - apply Regex.MAltR. now apply IHb.
  - discriminate.
  - destruct s1 as [|c1 s1'].
    + cbn in E. now apply IHs.
    + cbn in E. injection E as -> <-.
      constructor; [now apply IHa|exact Hs].
Qed.

(** The matcher decides the pattern's language. *)
Lemma test_matches (s : jsstring) :
  forall r, Regex.test r s = true <-> Regex.Matches r s.
Proof.
  induction s as [|c t IH]; intros r; cbn.
  - apply nullable_matches.
  - rewrite IH. split; [apply deriv_sound|].
    intros H. exact (deriv_complete c r (c :: t) H t eq_refl).
Qed.

Lemma star_class (p : code_unit -> bool) (s : jsstring) :
  Regex.Matches (Regex.Star (Regex.Class p)) s <-> forallb p s = true.
Proof.
  split.
  - intros H. remember (Regex.Star (Regex.Class p)) as r eqn:E.
    induction H; try discriminate; [reflexivity|].
    injection E as ->. inversion H; subst. cbn.
    rewrite IHMatches2; [|reflexivity].
    now rewrite andb_true_r.
  - induction s as [|c t IH]; cbn; intros H; [constructor|].
    apply andb_prop in H as [Hc Ht].
    change (c :: t) with ([c] ++ t).
    constructor; [now constructor|now apply IH].
Qed.

Lemma plus_class (p : code_unit -> bool) (s : jsstring) :
  Regex.Matches (Regex.Plus (Regex.Class p)) s
  <-> Register.nonempty_all p s.
Proof.
  unfold Regex.Plus, Register.nonempty_all. split.
  - intros H. inversion H as [| |? ? s1 t H1 H2| | | |]; subst.
    inversion H1; subst. apply star_class in H2. cbn.
    split; [discriminate|]. now rewrite H2, andb_true_r.
  - intros [Hne H]. destruct s as [|c t]; [congruence|].
    cbn in H. apply andb_prop in H as [Hc Ht].
    change (c :: t) with ([c] ++ t).
    constructor; [now constructor|now apply star_class].
Qed.

Lemma class_single (p : code_unit -> bool) (s : jsstring) :
  Regex.Matches (Regex.Class p) s <-> exists c, s = [c] /\ p c = true.
Proof.
  split.
  - intros H. inversion H; subst. eauto.
  - intros [c [-> H]]. now constructor.
Qed.

Lemma email_re_shape (s : jsstring) :
  Regex.Matches Register.email_re s <-> Register.email_shape s.
Proof.
  unfold Register.email_re, Register.email_shape. split.
  - intros H.
    inversion H as [| |? ? a r1 Ha H1| | | |]; subst. clear H.
    inversion H1 as [| |? ? x r2 Hx H2| | | |]; subst. clear H1.
    inversion H2 as [| |? ? b r3 Hb H3| | | |]; subst. clear H2.
    inversion H3 as [| |? ? y c Hy Hc| | | |]; subst. clear H3.
    apply class_single in Hx as [cx [-> Px]].
    apply class_single in Hy as [cy [-> Py]].
    apply N.eqb_eq in Px, Py. subst.
    exists a, b, c. split; [reflexivity|].
    split; [|split]; now apply plus_class.
  - intros [a [b [c [-> [Ha [Hb Hc]]]]]].
    change (a ++ 64%N :: b ++ 46%N :: c)
      with (a ++ ([64%N] ++ (b ++ ([46%N] ++ c)))).
    constructor; [now apply plus_class|].
    constructor; [now constructor|].
    constructor; [now apply plus_class|].
    constructor; [now constructor|now apply plus_class].
Qed.

(** [validateForm] accepts a form exactly when the two passwords are the
    same string of at least eight code units, the username is a
    non-empty string of ASCII letters, digits, [_] and [-], and the email
    reads [local@domain.tld] with three non-empty parts free of
    whitespace and [@]. *)
Theorem validateForm_accepts (f : Register.FormData) :
  Register.validateForm f = None
  <-> Register.password f = Register.confirm_password f
      /\ (8 <= List.length (Register.password f))%nat
      /\ Register.nonempty_all Register.username_char (Register.username f)
      /\ Register.email_shape (Register.email f).
Proof.
  unfold Register.validateForm.
  rewrite <- plus_class, <- email_re_shape, <- !test_matches.
  fold Register.username_re.
  destruct (JS.eqb (Register.password f) (Register.confirm_password f))
    eqn:P; cbn [negb].
  - apply eqb_eq in P.
    destruct (Nat.ltb (List.length (Register.password f)) 8) eqn:L.
    + apply Nat.ltb_lt in L. split; [discriminate|]. intros [_ [H _]]. lia.
    + apply Nat.ltb_ge in L.
      destruct (Regex.test Register.username_re (Register.username f));
        cbn [negb];
        [|split; [discriminate|intros [_ [_ [H _]]]; discriminate]].
      destruct (Regex.test Register.email_re (Register.email f)); cbn [negb].
      * tauto.
      * split; [discriminate|]. intros [_ [_ [_ H]]]. discriminate.
  - apply eqb_neq in P. split; [discriminate|]. tauto.
Qed.

Lemma accepted_email_matches (f : Register.FormData) :
  Register.validateForm f = None ->
  Regex.test Register.email_re (Register.email f) = true.
Proof.
  unfold Register.validateForm.
  destruct (negb (JS.eqb (Register.password f) (Register.confirm_password f)));
    [discriminate|].
  destruct (Nat.ltb (List.length (Register.password f)) 8); [discriminate|].
  destruct (negb (Regex.test Register.username_re (Register.username f)));
    [discriminate|].
  destruct (Regex.test Register.email_re (Register.email f));
    [reflexivity|discriminate].
Qed.

Lemma email_char_count (s : jsstring) :
  forallb Register.email_char s = true ->
  count_occ N.eq_dec s 64%N = 0%nat
  /\ forallb (fun c => negb (is_whitespace c)) s = true.
Proof.
  induction s as [|c t IH]; cbn; [tauto|].
  intros H. apply andb_prop in H as [Hc Ht].
  destruct (IH Ht) as [I1 I2]. unfold Register.email_char in Hc.
  apply negb_true_iff, orb_false_elim in Hc as [Hw Ha].
  apply N.eqb_neq in Ha.
  destruct (N.eq_dec c 64) as [E|_]; [contradiction|].
  rewrite Hw, I2. split; [exact I1|reflexivity].
Qed.

(** An accepted form has an email with exactly one [@] and without any
    whitespace. *)
Theorem accepted_email_one_at (f : Register.FormData) :
  Register.validateForm f = None ->
  count_occ N.eq_dec (Register.email f) 64%N = 1%nat
  /\ forallb (fun c => negb (is_whitespace c)) (Register.email f) = true.
Proof.
  intros H. apply accepted_email_matches, test_matches, email_re_shape in H
    as [a [b [c [-> [[_ Ha] [[_ Hb] [_ Hc]]]]]]].
  destruct (email_char_count a Ha) as [A1 A2].
  destruct (email_char_count b Hb) as [B1 B2].
  destruct (email_char_count c Hc) as [C1 C2].
  split.
  - rewrite count_occ_app. cbn.
    rewrite count_occ_app. cbn. lia.
  - rewrite forallb_app. cbn [forallb]. rewrite forallb_app. cbn [forallb].
    repeat (apply andb_true_intro; split);
      first [exact A2 | exact B2 | exact C2 | reflexivity].
Qed.

Lemma accepted_email_one_at_witness :
  Register.validateForm Register.sampleForm = None
  /\ count_occ N.eq_dec (Register.email Register.sampleForm) 64%N = 1%nat.
Proof.
  split; [reflexivity|].
  exact (proj1 (accepted_email_one_at Register.sampleForm eq_refl)).
Defined.

(** ** The authentication context *)

(** Once the provider has mounted on a stored token that is not the empty
    string (or on none), the current user is the one whose token is
    stored, and stays so through any sequence of logins, registrations
    and logouts in which every accepted login carries a string as
    [access_token].  An accepted login whose [access_token] is not a
    string (missing, null, a number) breaks it from any state:
    [localStorage] then holds the value's string form and the current
    user the value itself. *)
Theorem auth_consistent (stored : option jsstring)
  (reqs : list Auth.Request) :
  (stored <> Some [] ->
   Forall Auth.string_token reqs ->
   Auth.consistent
     (fold_left Auth.step reqs (Auth.on_mount (Auth.freshTab stored))))
  /\ (forall st printed t,
        let st' := Auth.step st (Auth.Login (Auth.Data (Auth.NotStr printed t)))
        in Auth.stored_token st' = Some printed
           /\ Auth.currentUser st' = Some (Auth.NotStr printed t)
           /\ ~ Auth.consistent st').
Proof.
  split.
  - intros H F.
    assert (C : Auth.consistent (Auth.on_mount (Auth.freshTab stored))).
    { unfold Auth.consistent. cbn.
      destruct stored as [[|c t]|]; [now elim H|reflexivity|reflexivity]. }
    revert C. generalize (Auth.on_mount (Auth.freshTab stored)).
    induction F as [|r rest Hr F IH]; intros st C; cbn; [exact C|].
    apply IH.
    destruct r as [[e| |[tok|printed t]]|[e|u]|]; cbn;
      try exact C; try reflexivity.
    destruct Hr.
  - intros st printed t. cbn. repeat split. unfold Auth.consistent. cbn.
    discriminate.
Qed.

Lemma auth_consistent_witness :
  Auth.currentUser
    (fold_left Auth.step
       [ Auth.Login (Auth.Refused {| Auth.detail := Auth.undefined |});
         Auth.Login (Auth.Data (Auth.Str (lit "tok2"))) ]
       (Auth.on_mount (Auth.freshTab (Some (lit "tok1")))))
  = Some (Auth.Str (lit "tok2")).
Proof.
  rewrite (proj1 (auth_consistent (Some (lit "tok1"))
             [ Auth.Login (Auth.Refused {| Auth.detail := Auth.undefined |});
               Auth.Login (Auth.Data (Auth.Str (lit "tok2"))) ])).
  - reflexivity.
  - discriminate.
  - repeat constructor.
Defined.

(** A rejected login or registration, and a login answered without data,
    change neither the stored token nor the current user and return
    [success: false] with exactly this error: the backend's detail when
    it is truthy (a non-empty string, or a truthy value that is not a
    string, passed on as it is), and otherwise the fixed text,
    [Login failed] or [Registration failed]. *)
Theorem auth_failure_reported (e : Auth.AxiosError) (st : Auth.State) :
  let l := Auth.login (Auth.Refused e) st in
  let r := Auth.register (inl e) st in
  let n := Auth.login Auth.NoData st in
  snd l = st /\ snd r = st /\ snd n = st
  /\ Auth.success (fst l) = false
  /\ Auth.success (fst r) = false
  /\ Auth.success (fst n) = false
  /\ Auth.error (fst n) = Some (Auth.Str (lit "Login failed"))
  /\ (forall d, Auth.detail e = Auth.Str d -> d <> [] ->
        Auth.error (fst l) = Some (Auth.Str d)
        /\ Auth.error (fst r) = Some (Auth.Str d))
  /\ (forall printed, Auth.detail e = Auth.NotStr printed true ->
        Auth.error (fst l) = Some (Auth.NotStr printed true)
        /\ Auth.error (fst r) = Some (Auth.NotStr printed true))
  /\ (Auth.detail e = Auth.Str []
      \/ (exists printed, Auth.detail e = Auth.NotStr printed false) ->
      Auth.error (fst l) = Some (Auth.Str (lit "Login failed"))
      /\ Auth.error (fst r) = Some (Auth.Str (lit "Registration failed"))).
Proof.
  cbn. repeat (split; [reflexivity|]). split; [|split].
  - intros d H Hd. rewrite H. destruct d as [|c t]; [congruence|].
    split; reflexivity.
  - intros printed H. rewrite H. split; reflexivity.
  - intros [H|[printed H]]; rewrite H; split; reflexivity.
Qed.

(** A refused login with the detail [Incorrect password]; a registration
    refused without any detail. *)
Lemma auth_failure_reported_witness :
  Auth.error
    (fst (Auth.login
            (Auth.Refused
               {| Auth.detail := Auth.Str (lit "Incorrect password") |})
            (Auth.freshTab None)))
  = Some (Auth.Str (lit "Incorrect password"))
  /\ Auth.error
       (fst (Auth.register (inl {| Auth.detail := Auth.undefined |})
                           (Auth.freshTab None)))
     = Some (Auth.Str (lit "Registration failed")).
Proof.
  split.
  - destruct (auth_failure_reported
                {| Auth.detail := Auth.Str (lit "Incorrect password") |}
                (Auth.freshTab None)) as [_ [_ [_ [_ [_ [_ [_ [H _]]]]]]]].
    apply (H (lit "Incorrect password")); [reflexivity|discriminate].
  - destruct (auth_failure_reported {| Auth.detail := Auth.undefined |}
                (Auth.freshTab None)) as [_ [_ [_ [_ [_ [_ [_ [_ [_ H]]]]]]]]].
    apply H. right. now exists (lit "undefined").
Defined.

(** ** What the list shows after an add *)

(** When the backend accepts a new memory and the refresh that follows
    fails, the entry at the end of the list is the form's object, which
    has no [metadata]: whatever type and importance the user chose, it is
    shown as [fact] with importance 1. *)
Theorem added_memory_shown_as_fact {W} (h : Handler W) (w w1 w2 : W)
  (state : UserContext.State) (live : AppState) (uid : jsstring)
  (data : NewMemory) (e : ApiError) :
  truthy_userId state = Some uid ->
  h _ (AddUserMemoryApi uid data) w = (Resolved tt, w1) ->
  h _ (GetUserMemoriesApi uid None) w1 = (Rejected e, w2) ->
  let shown := UserContext.memories
                 (usr (app (run h (addMemory state data) w live))) in
  map displayed_memory_type shown
  = map displayed_memory_type (UserContext.memories (usr live))
    ++ [lit "fact"]
  /\ map displayed_importance shown
     = map displayed_importance (UserContext.memories (usr live)) ++ [1%Z].
Proof.
  intros Hu Ha Hg. unfold addMemory, loadMemories. rewrite Hu. cbn.
  rewrite Ha. cbn. rewrite Hg. cbn. rewrite !map_app. split; reflexivity.
Qed.

(** A goal of importance 8, added while the listing endpoint is down. *)
Lemma added_memory_shown_as_fact_witness :
  let data := {| content := lit "run a marathon"; memory_type := lit "goal";
                 importance_score := Num 8 |} in
  let shown := UserContext.memories
                 (usr (app (run listing_down (addMemory (usr signedIn) data)
                                tt signedIn))) in
  map displayed_memory_type shown = [lit "fact"]
  /\ map displayed_importance shown = [1%Z].
Proof.
  intros data shown.
  apply (added_memory_shown_as_fact listing_down tt tt tt (usr signedIn)
           signedIn (lit "u1") data network_error); reflexivity.
Defined.

(** ** Creating or loading the user *)

(** On a backend that rejects every [createUser] and answers every
    [getUser] with 404, the two handlers keep calling each other: no
    bound on the number of requests lets either of them finish. *)
Theorem user_bootstrap_never_settles {W} (h : UserBackend W) :
  refuses_and_misses h ->
  forall fuel uid w st,
    createUser fuel h uid w st = None /\ loadUser fuel h uid w st = None.
Proof.
  intros [Hc Hg]. induction fuel as [|fuel IH]; intros uid w st; cbn;
    [split; reflexivity|].
  split.
  - destruct (Hc uid w) as [e [w' E]]. rewrite E.
    now rewrite (proj2 (IH uid w' st)).
  - destruct (Hg uid w) as [e [w' [E S]]]. rewrite E, S.
    now rewrite (proj1 (IH uid w' _)).
Qed.

Lemma user_bootstrap_never_settles_witness :
  createUser 1000 stubborn (lit "u1") tt UserContext.initialState = None.
Proof.
  apply (user_bootstrap_never_settles stubborn).
  split; intros uid w; destruct w; cbn; eauto.
Defined.

(** When [createUser] is rejected and the [getUser] that follows is
    rejected with anything but a 404 (for instance without a response),
    the start-up ends after these two requests: the user is as before
    and the loading flag is down. *)
Theorem user_bootstrap_gives_up {W} (h : UserBackend W) (fuel : nat)
  (uid : jsstring) (w w1 w2 : W) (st : UserContext.State)
  (e1 e2 : ApiError) :
  h (CreateUserApi uid) w = (Rejected e1, w1) ->
  h (GetUserApi uid) w1 = (Rejected e2, w2) ->
  status e2 <> Some 404%Z ->
  exists b,
    createUser (S (S fuel)) h uid w st = Some b
    /\ boot_requests b = [CreateUserApi uid; GetUserApi uid]
    /\ boot_world b = w2
    /\ UserContext.user (boot_state b) = UserContext.user st
    /\ UserContext.isLoading (boot_state b) = false.
Proof.
  intros Hc Hg Hs. cbn. rewrite Hc, Hg.
  destruct (status e2) as [z|] eqn:S.
  - destruct (Z.eq_dec z 404) as [->|Hz]; [congruence|].
    destruct z as [|p|p]; try (eexists; cbn; repeat split; reflexivity).
    assert (Hp : p <> 404%positive) by congruence.
    repeat (destruct p as [p|p|];
            try (eexists; cbn; repeat split; reflexivity)).
    congruence.
  - eexists; cbn; repeat split; reflexivity.
Qed.

Lemma user_bootstrap_gives_up_witness :
  exists b,
    createUser 2 unreachable (lit "u1") tt UserContext.initialState = Some b
    /\ boot_requests b = [CreateUserApi (lit "u1"); GetUserApi (lit "u1")]
    /\ UserContext.user (boot_state b) = None.
Proof.
  destruct (user_bootstrap_gives_up unreachable 0 (lit "u1") tt tt tt
              UserContext.initialState network_error network_error
              eq_refl eq_refl) as [b [H1 [H2 [_ [H3 _]]]]].
  - discriminate.
  - exists b. repeat split; assumption.
Defined.
